(** * Clank tracker: card-name extraction and session accumulation

    A shallow embedding of [src/ocr_processor.py], [src/screen_capture.py]
    and [src/game_tracker.py], followed by the properties of the text
    cleaning, the card-name heuristic, the extraction pipeline and the
    session accumulator.

    Conventions of the embedding.
    - A Python [str] is a list of code points.  The embedding covers the
      code points U+0000..U+007F, for which [ascii] is used; the values of
      [ascii] above 127 stand for no Python character and are classified
      as symbols (neither whitespace, nor word characters, nor cased).
    - A Python [float] is a binary64 value, which is what [PrimFloat.float]
      is; the literal [0.7] denotes the same double on both sides.  The
      operations of Python that the primitive floats lack ([int / int],
      [divmod], [int]) are written out on the mantissa and the exponent.
    - [print] calls are not modelled.  The clock, the file system and the
      libraries (pytesseract, easyocr, OpenCV, json, pathlib, datetime
      formatting) are parameters of the sections that use them. *)

From Stdlib Require Import Bool Arith ZArith Lia Ascii String List.
From Stdlib Require Import Permutation.
From Stdlib Require Import Floats.PrimFloat Floats.FloatClass.
From Stdlib Require Import Numbers.Cyclic.Int63.Uint63.
From Stdlib Require Import Numbers.DecimalString.
Import ListNotations.

Set Warnings "-inexact-float,-register-all".
Local Open Scope list_scope.

(* ================================================================= *)
(** ** Python strings *)

Module PyStr.

Definition str := list ascii.

(** A string literal of the source. *)
Definition lit (s : string) : str := list_ascii_of_string s.

Definition code (c : ascii) : nat := nat_of_ascii c.

Definition in_range (lo hi : nat) (c : ascii) : bool :=
  (lo <=? code c) && (code c <=? hi).

(** [str.isspace], which is also what [str.split()], [str.strip()] and
    the regular-expression class [\s] use: TAB, LF, VT, FF, CR, the four
    separators FS, GS, RS, US, and the space. *)
Definition isspace (c : ascii) : bool :=
  in_range 9 13 c || in_range 28 32 c.

Definition isupper (c : ascii) : bool := in_range 65 90 c.
Definition islower (c : ascii) : bool := in_range 97 122 c.
Definition isalpha (c : ascii) : bool := isupper c || islower c.
Definition isdigit (c : ascii) : bool := in_range 48 57 c.

(** The regular-expression class [\w]: letters, digits and the
    underscore. *)
Definition is_word (c : ascii) : bool :=
  isalpha c || isdigit c || Ascii.eqb c "_".

Definition tolower (c : ascii) : ascii :=
  if isupper c then ascii_of_nat (code c + 32) else c.

Definition toupper (c : ascii) : ascii :=
  if islower c then ascii_of_nat (code c - 32) else c.

(** [str.lower()] *)
Definition lower (s : str) : str := map tolower s.

Definition str_eqb (a b : str) : bool :=
  if list_eq_dec ascii_dec a b then true else false.

(** [x in xs] for a list of strings. *)
Definition mem (x : str) (xs : list str) : bool := existsb (str_eqb x) xs.

Fixpoint startswith (p s : str) : bool :=
  match p, s with
  | [], _ => true
  | _ :: _, [] => false
  | a :: p', b :: s' => Ascii.eqb a b && startswith p' s'
  end.

(** [needle in hay] for strings: substring search. *)
Fixpoint contains (needle hay : str) : bool :=
  startswith needle hay ||
  match hay with
  | [] => false
  | _ :: hay' => contains needle hay'
  end.

Definition emit (w : str) (ws : list str) : list str :=
  match w with
  | [] => ws
  | _ :: _ => w :: ws
  end.

(** [str.split()] without arguments: a left-to-right scan that cuts at
    every run of whitespace and yields no empty token; [w] is the token
    being read. *)
Fixpoint split_from (w : str) (s : str) : list str :=
  match s with
  | [] => emit w []
  | c :: s' =>
      if isspace c then emit w (split_from [] s')
      else split_from (w ++ [c]) s'
  end.

Definition split (s : str) : list str := split_from [] s.

(** [str.split(sep)] for a one-character separator: every occurrence
    cuts, empty pieces are kept. *)
Fixpoint split_sep_from (sep : ascii) (w : str) (s : str) : list str :=
  match s with
  | [] => [w]
  | c :: s' =>
      if Ascii.eqb c sep then w :: split_sep_from sep [] s'
      else split_sep_from sep (w ++ [c]) s'
  end.

Definition split_sep (sep : ascii) (s : str) : list str :=
  split_sep_from sep [] s.

(** [sep.join(parts)] *)
Fixpoint join (sep : str) (parts : list str) : str :=
  match parts with
  | [] => []
  | [w] => w
  | w :: ws => w ++ sep ++ join sep ws
  end.

Fixpoint lstrip (s : str) : str :=
  match s with
  | [] => []
  | c :: s' => if isspace c then lstrip s' else s
  end.

Definition rstrip (s : str) : str := rev (lstrip (rev s)).

(** [str.strip()] *)
Definition strip (s : str) : str := rstrip (lstrip s).

(** [str.title()]: the scan of CPython, with its flag
    [previous_is_cased]. *)
Fixpoint title_from (previous_is_cased : bool) (s : str) : str :=
  match s with
  | [] => []
  | c :: s' =>
      if islower c then
        (if previous_is_cased then c else toupper c) :: title_from true s'
      else if isupper c then
        (if previous_is_cased then tolower c else c) :: title_from true s'
      else c :: title_from false s'
  end.

Definition title (s : str) : str := title_from false s.

(** [str(n)] for a non-negative integer. *)
Definition str_of_nat (n : nat) : str :=
  lit (NilZero.string_of_uint (Nat.to_uint n)).

(** [float(n)] for an integer; exact below 2^53. *)
Definition float_of_nat (n : nat) : float :=
  PrimFloat.of_uint63 (Uint63.of_Z (Z.of_nat n)).

(** [int(x)] for a float: truncation toward zero; [None] when Python
    raises, on a NaN or an infinity.  The float is [mant * 2^k] with a
    53-bit [mant], read off [frshiftexp] and [normfr_mantissa]. *)
Definition int_of_float (x : float) : option Z :=
  if PrimFloat.is_nan x || PrimFloat.is_infinity x then None
  else
    let (m, e) := PrimFloat.frshiftexp (PrimFloat.abs x) in
    let mant := Uint63.to_Z (PrimFloat.normfr_mantissa m) in
    let k := (Uint63.to_Z e - 2101 - 53)%Z in
    let v := Z.shiftl mant k in
    Some (if PrimFloat.ltb x 0%float then (- v)%Z else v).

(** A finite float is [m * 2^e] for a signed [m] below 2^53 in
    magnitude: [decode] reads the pair off it, [encode] builds the float
    of a pair. *)
Definition decode (x : float) : Z * Z :=
  let (m, e) := PrimFloat.frshiftexp (PrimFloat.abs x) in
  let mant := Uint63.to_Z (PrimFloat.normfr_mantissa m) in
  ((if PrimFloat.ltb x 0%float then - mant else mant)%Z,
   (Uint63.to_Z e - 2101 - 53)%Z).

Definition encode (m e : Z) : float :=
  let f :=
    PrimFloat.ldshiftexp (PrimFloat.of_uint63 (Uint63.of_Z (Z.abs m)))
                         (Uint63.of_Z (e + 2101)) in
  if (m <? 0)%Z then PrimFloat.opp f else f.

(** [a / b] for two integers, [b] positive: the double nearest to the
    quotient, ties to even.  The quotient is taken with two or three
    bits beyond the 53 of the mantissa, and a sticky bit for the rest. *)
Definition true_divide (a b : Z) : float :=
  if (a =? 0)%Z then 0%float
  else
    let n := Z.abs a in
    let sh := (55 - (Z.log2 n - Z.log2 b))%Z in
    let num := if (0 <=? sh)%Z then Z.shiftl n sh else n in
    let den := if (0 <=? sh)%Z then b else Z.shiftl b (- sh) in
    let q := (num / den)%Z in
    let sticky := negb (num mod den =? 0)%Z in
    let extra := (Z.log2 q + 1 - 53)%Z in
    let hi := Z.shiftr q extra in
    let low := (q - Z.shiftl hi extra)%Z in
    let half := Z.shiftl 1 (extra - 1) in
    let up := (half <? low)%Z || ((low =? half)%Z && (sticky || Z.odd hi)) in
    let m := if up then (hi + 1)%Z else hi in
    encode (if (a <? 0)%Z then - m else m)%Z (extra - sh)%Z.

(** C's [fmod], for a finite [x] and a finite non-zero [y]: the exact
    remainder of the magnitudes, with the sign of [x]. *)
Definition fmod (x y : float) : float :=
  let (mx, ex) := decode x in
  let (my, ey) := decode y in
  let e := Z.min ex ey in
  let r := (Z.shiftl (Z.abs mx) (ex - e) mod Z.shiftl (Z.abs my) (ey - e))%Z in
  encode (if (mx <? 0)%Z then - r else r)%Z e.

(** C's [floor], for a finite float. *)
Definition floor (x : float) : float :=
  let (m, e) := decode x in
  if (0 <=? e)%Z then x else encode (Z.shiftr m (- e)) 0.

(** [copysign(0.0, y)] *)
Definition copysign_zero (y : float) : float :=
  match PrimFloat.classify y with
  | NNormal | NSubn | NZero | NInf => PrimFloat.opp 0%float
  | _ => 0%float
  end.

(** [divmod(vx, wx)] for two floats, [wx] non-zero, as CPython's
    [float_divmod] computes it. *)
Definition float_divmod (vx wx : float) : float * float :=
  let mod_ := fmod vx wx in
  let div := PrimFloat.div (PrimFloat.sub vx mod_) wx in
  let '(mod_, div) :=
    if negb (PrimFloat.eqb mod_ 0%float) then
      if xorb (PrimFloat.ltb wx 0%float) (PrimFloat.ltb mod_ 0%float)
      then (PrimFloat.add mod_ wx, PrimFloat.sub div 1%float)
      else (mod_, div)
    else (copysign_zero wx, div) in
  let floordiv :=
    if negb (PrimFloat.eqb div 0%float) then
      let f := floor div in
      if PrimFloat.ltb 0.5%float (PrimFloat.sub div f)
      then PrimFloat.add f 1%float
      else f
    else copysign_zero (PrimFloat.div vx wx) in
  (floordiv, mod_).

(** [s.replace(old, '')] for a one-character [old]. *)
Definition remove_char (old : ascii) (s : str) : str :=
  filter (fun c => negb (Ascii.eqb c old)) s.

(** [xs[i:]] for a list and a possibly negative start index. *)
Definition slice_from {A : Type} (i : Z) (xs : list A) : list A :=
  let n := Z.of_nat (length xs) in
  let start := if (i <? 0)%Z then Z.max (n + i) 0 else Z.min i n in
  skipn (Z.to_nat start) xs.

End PyStr.

Import PyStr.

(* ================================================================= *)
(** ** ocr_processor.py *)

Module OCRProcessor.

(** [self.card_keywords] *)
Definition card_keywords : list str :=
  map lit
    [ "adventure"; "artifact"; "companion"; "equipment"; "skill";
      "market"; "dungeon"; "major secret"; "minor secret";
      "clank"; "skill point"; "movement"; "attack"; "gold" ]%string.

(** The class of [re.sub(r'[^\w\s\-\']', '', text)]: what is kept. *)
Definition keeps (c : ascii) : bool :=
  is_word c || isspace c || Ascii.eqb c "-" || Ascii.eqb c "'".

Definition remove_artifacts (text : str) : str := filter keeps text.

Definition clean_text (text : str) : str :=
  let text := join (lit " ") (split text) in
  let text := remove_artifacts text in
  let text := title text in
  strip text.

Definition letter_count (text : str) : nat :=
  length (filter isalpha text).

Definition is_likely_card_name (text : str) : bool :=
  match text with
  | [] => false
  | _ :: _ =>
      if length text <? 3 then false
      else
        let text_lower := lower text in
        if existsb (fun keyword => contains keyword text_lower) card_keywords
        then true
        else if (3 <=? length text) && (length text <=? 30) then
          PrimFloat.leb
            (PrimFloat.mul (float_of_nat (length text)) 0.7%float)
            (float_of_nat (letter_count text))
        else false
  end.

(** An invocation of one of the two recognition adapters,
    [extract_text_pytesseract] and [extract_text_easyocr], with the image
    it was given. *)
Inductive call (image : Type) : Type :=
| Tesseract (img : image)
| EasyOCR (img : image).
Arguments Tesseract {image} img.
Arguments EasyOCR {image} img.

(** The dictionary that [get_game_state_info] returns. *)
Record GameStateInfo : Type := {
  raw_text : str;
  card_names : list str;
  high_confidence_text : list str;
  timestamp : option str
}.

Section Engines.

Variable image : Type.
Variable bbox : Type.

(** [pytesseract.image_to_string(image, config=...)]; [None] when the
    library raises. *)
Variable image_to_string : image -> option str.

(** [self.easyocr_reader.readtext(np.array(image))]; [None] when the
    conversion or the library raises. *)
Variable readtext : image -> option (list (bbox * str * float)).

(** A computation that calls the engines: its value and the calls it
    made, in order. *)
Definition logged (A : Type) : Type := A * list (call image).

Definition ret {A} (a : A) : logged A := (a, []).

Definition bind {A B} (m : logged A) (k : A -> logged B) : logged B :=
  let (a, l1) := m in
  let (b, l2) := k a in
  (b, l1 ++ l2).

Definition extract_text_pytesseract (img : image) : logged str :=
  (match image_to_string img with
   | Some text => strip text
   | None => []
   end,
   [Tesseract img]).

Definition extract_text_easyocr (img : image) : logged (list (str * float)) :=
  (match readtext img with
   | Some results => map (fun result => (snd (fst result), snd result)) results
   | None => []
   end,
   [EasyOCR img]).

(** The loop over the lines of Tesseract's text. *)
Definition add_line (card_names : list str) (line : str) : list str :=
  let cleaned_line := clean_text line in
  if is_likely_card_name cleaned_line
  then card_names ++ [cleaned_line]
  else card_names.

(** The loop over EasyOCR's regions. *)
Definition add_region (card_names : list str) (r : str * float) : list str :=
  let (text, confidence) := r in
  if PrimFloat.ltb 0.7%float confidence then
    let cleaned_text := clean_text text in
    if is_likely_card_name cleaned_text
    then card_names ++ [cleaned_text]
    else card_names
  else card_names.

(** The loop that removes duplicates. *)
Definition add_unique (unique_cards : list str) (card : str) : list str :=
  if negb (mem card unique_cards)
  then unique_cards ++ [card]
  else unique_cards.

Definition collect (tesseract_text : str) (easyocr_results : list (str * float))
  : list str :=
  let card_names := [] in
  let card_names :=
    match tesseract_text with
    | [] => card_names
    | _ :: _ =>
        let lines := split_sep "010" tesseract_text in
        fold_left add_line lines card_names
    end in
  let card_names := fold_left add_region easyocr_results card_names in
  fold_left add_unique card_names [].

Definition extract_card_names (img : image) : logged (list str) :=
  bind (extract_text_pytesseract img) (fun tesseract_text =>
  bind (extract_text_easyocr img) (fun easyocr_results =>
  ret (collect tesseract_text easyocr_results))).

Definition get_game_state_info (img : image) : logged GameStateInfo :=
  bind (extract_text_pytesseract img) (fun all_text =>
  bind (extract_text_easyocr img) (fun easyocr_results =>
  bind (extract_card_names img) (fun names =>
  ret {| raw_text := all_text;
         card_names := names;
         high_confidence_text :=
           map fst (filter (fun r => PrimFloat.ltb 0.8%float (snd r))
                           easyocr_results);
         timestamp := None |}))).

End Engines.

Arguments extract_card_names {image bbox} image_to_string readtext img.
Arguments extract_text_pytesseract {image} image_to_string img.
Arguments extract_text_easyocr {image bbox} readtext img.
Arguments get_game_state_info {image bbox} image_to_string readtext img.
Arguments ret {image A} a.
Arguments bind {image A B} m k.

End OCRProcessor.

Import OCRProcessor.

(* ================================================================= *)
(** ** screen_capture.py *)

Module ScreenCapture.

(** A PIL image: mode [RGB] with its rows of (R, G, B) pixels, or mode
    [L] with its rows of 8-bit grey levels. *)
Inductive Image : Type :=
| RGB (pixels : list (list (Z * Z * Z)))
| L (pixels : list (list Z)).

Definition rgb2bgr (p : Z * Z * Z) : Z * Z * Z :=
  let '(r, g, b) := p in (b, g, r).

(** [cv2.THRESH_BINARY] at threshold [t]. *)
Definition thresh_binary (t : Z) (v : Z) : Z :=
  if (v >? t)%Z then 255%Z else 0%Z.

Section OpenCV.

(** [cv2.COLOR_BGR2GRAY] on one pixel. *)
Variable bgr2gray : Z * Z * Z -> Z.

(** The threshold that [cv2.THRESH_OTSU] chooses for a grey image. *)
Variable otsu : list (list Z) -> Z.

(** [None] when OpenCV raises: [COLOR_RGB2BGR] needs three channels. *)
Definition preprocess_for_ocr (image : Image) : option Image :=
  match image with
  | RGB pixels =>
      let cv_image := map (map rgb2bgr) pixels in
      let gray := map (map bgr2gray) cv_image in
      let thresh := map (map (thresh_binary (otsu gray))) gray in
      Some (L thresh)
  | L _ => None
  end.

End OpenCV.

Section PyAutoGUI.

(** [pyautogui.screenshot(region=...)]; [None] for the whole screen. *)
Variable screenshot : option (Z * Z * Z * Z) -> Image.

(** [self.screen_width] and [self.screen_height], read once by
    [__init__] from [pyautogui.size()]. *)
Variables screen_width screen_height : nat.

Definition capture_full_screen : Image := screenshot None.

Definition capture_region (x y width height : Z) : Image :=
  screenshot (Some (x, y, width, height)).

(** [None] when one of the four [int(...)] raises. *)
Definition capture_game_area : option Image :=
  match int_of_float (PrimFloat.mul (float_of_nat screen_width) 0.1%float),
        int_of_float (PrimFloat.mul (float_of_nat screen_height) 0.1%float),
        int_of_float (PrimFloat.mul (float_of_nat screen_width) 0.8%float),
        int_of_float (PrimFloat.mul (float_of_nat screen_height) 0.8%float)
  with
  | Some margin_x, Some margin_y, Some width, Some height =>
      Some (capture_region margin_x margin_y width height)
  | _, _, _, _ => None
  end.

End PyAutoGUI.

End ScreenCapture.

(* ================================================================= *)
(** ** game_tracker.py *)

Module GameTracker.

(** The values that [json] reads and writes, and that the [data] and
    [ocr_results] arguments carry. *)
Inductive json : Type :=
| JNull
| JBool (b : bool)
| JInt (z : Z)
| JFloat (f : float)
| JStr (s : str)
| JList (items : list json)
| JDict (entries : list (str * json)).

(** Truth value of a Python object, as [or] tests it. *)
Definition truthy (v : json) : bool :=
  match v with
  | JNull => false
  | JBool b => b
  | JInt z => negb (z =? 0)%Z
  | JFloat f => negb (PrimFloat.eqb f 0%float)
  | JStr s => negb (length s =? 0)
  | JList items => negb (length items =? 0)
  | JDict entries => negb (length entries =? 0)
  end.

(** An instant of the clock, in microseconds; the source stores its
    ISO-8601 text and parses it back where it computes with it. *)
Definition datetime := Z.

(** [timedelta.total_seconds()] of a difference of [d] microseconds:
    the integer division [d / 10**6] of Python, a double. *)
Definition total_seconds (d : Z) : float := true_divide d 1000000.

(** [int(x)] on a quotient or a remainder of seconds, which is finite. *)
Definition int_of_seconds (x : float) : Z :=
  match int_of_float x with
  | Some n => n
  | None => 0%Z
  end.

Record CardEvent : Type := {
  card_name : str;
  card_timestamp : datetime;
  screenshot : option str;
  confidence : str
}.

Record GameEvent : Type := {
  event_type : str;
  description : str;
  event_timestamp : datetime;
  data : json
}.

Record Screenshot : Type := {
  path : str;
  shot_timestamp : datetime;
  ocr_results : json
}.

(** [self.current_session]; the key [end_time] is absent until the first
    save. *)
Record Session : Type := {
  session_id : str;
  start_time : datetime;
  cards_seen : list CardEvent;
  scenarios : list str;
  game_events : list GameEvent;
  screenshots : list Screenshot;
  end_time : option datetime
}.

(** The tracker object; [S] is what [current_session] holds. *)
Record state (S : Type) : Type := {
  save_directory : str;
  current_session : S
}.
Arguments save_directory {S} _.
Arguments current_session {S} _.

Definition set_session {S T} (t : state S) (s : T) : state T :=
  {| save_directory := save_directory t; current_session := s |}.

Definition set_cards_seen (s : Session) (cs : list CardEvent) : Session :=
  {| session_id := session_id s; start_time := start_time s;
     cards_seen := cs; scenarios := scenarios s;
     game_events := game_events s; screenshots := screenshots s;
     end_time := end_time s |}.

Definition set_game_events (s : Session) (es : list GameEvent) : Session :=
  {| session_id := session_id s; start_time := start_time s;
     cards_seen := cards_seen s; scenarios := scenarios s;
     game_events := es; screenshots := screenshots s;
     end_time := end_time s |}.

Definition set_screenshots (s : Session) (ss : list Screenshot) : Session :=
  {| session_id := session_id s; start_time := start_time s;
     cards_seen := cards_seen s; scenarios := scenarios s;
     game_events := game_events s; screenshots := ss;
     end_time := end_time s |}.

Definition set_end_time (s : Session) (e : datetime) : Session :=
  {| session_id := session_id s; start_time := start_time s;
     cards_seen := cards_seen s; scenarios := scenarios s;
     game_events := game_events s; screenshots := screenshots s;
     end_time := Some e |}.

(** One pass of the loop of [track_card_detection]. *)
Definition detect (timestamp : datetime) (screenshot_path : option str)
           (s : Session) (name : str) : Session :=
  let card_event :=
    {| card_name := name; card_timestamp := timestamp;
       screenshot := screenshot_path; confidence := lit "detected" |} in
  if negb (mem name (map card_name (cards_seen s)))
  then set_cards_seen s (cards_seen s ++ [card_event])
  else s.

(** [now] is the reading of [datetime.now()] taken on entry. *)
Definition track_card_detection (now : datetime) (t : state Session)
           (card_names : list str) (screenshot_path : option str)
  : state Session :=
  let timestamp := now in
  set_session t
    (fold_left (detect timestamp screenshot_path) card_names
               (current_session t)).

Definition track_game_event (now : datetime) (t : state Session)
           (event_type : str) (description : str) (data : json)
  : state Session :=
  let event :=
    {| event_type := event_type; description := description;
       event_timestamp := now;
       data := if truthy data then data else JDict [] |} in
  let s := current_session t in
  set_session t (set_game_events s (game_events s ++ [event])).

Definition track_screenshot (now : datetime) (t : state Session)
           (screenshot_path : str) (ocr_results : json)
  : state Session :=
  let screenshot_data :=
    {| path := screenshot_path; shot_timestamp := now;
       ocr_results := ocr_results |} in
  let s := current_session t in
  set_session t (set_screenshots s (screenshots s ++ [screenshot_data])).

Definition mentions (word : string) (detected_cards : list str) : bool :=
  existsb (fun card => contains (lit word) (lower card)) detected_cards.

Definition identify_scenario (detected_cards : list str) : str :=
  if mentions "dungeon" detected_cards then lit "Dungeon Exploration"
  else if mentions "market" detected_cards then lit "Market Phase"
  else if mentions "artifact" detected_cards then lit "Artifact Acquisition"
  else lit "Unknown Scenario".

(** [len(set(xs))] *)
Fixpoint distinct (xs : list str) : list str :=
  match xs with
  | [] => []
  | x :: xs' => if mem x xs' then distinct xs' else x :: distinct xs'
  end.

(** [f"{n:02d}"] *)
Definition format_02d (n : Z) : str :=
  if (n <? 0)%Z then lit "-" ++ str_of_nat (Z.to_nat (- n))
  else if (n <? 10)%Z then lit "0" ++ str_of_nat (Z.to_nat n)
  else str_of_nat (Z.to_nat n).

(** The difference of the two instants is exact; from [total_seconds()]
    on, the source computes with doubles, and so does this. *)
Definition _calculate_session_duration (now : datetime) (s : Session) : str :=
  let end_time :=
    match end_time s with
    | Some e => e
    | None => now
    end in
  let duration := (end_time - start_time s)%Z in
  let (hours, remainder) := float_divmod (total_seconds duration) 3600%float in
  let (minutes, seconds) := float_divmod remainder 60%float in
  format_02d (int_of_seconds hours) ++ lit ":"
    ++ format_02d (int_of_seconds minutes) ++ lit ":"
    ++ format_02d (int_of_seconds seconds).

Record Stats : Type := {
  stats_session_id : str;
  duration : str;
  unique_cards_seen : nat;
  total_events : nat;
  screenshots_captured : nat;
  scenarios_identified : nat
}.

Definition get_session_stats (now : datetime) (t : state Session) : Stats :=
  let s := current_session t in
  {| stats_session_id := session_id s;
     duration := _calculate_session_duration now s;
     unique_cards_seen := length (cards_seen s);
     total_events := length (game_events s);
     screenshots_captured := length (screenshots s);
     scenarios_identified := length (distinct (scenarios s)) |}.

Section Library.

(** [datetime.isoformat()] *)
Variable isoformat : datetime -> str.

(** [datetime.strftime("%Y%m%d_%H%M%S")] *)
Variable strftime : datetime -> str.

(** [json.dumps(value, indent=2)] and [json.loads(text)]; the latter
    is [None] when it raises [JSONDecodeError]. *)
Variable json_dumps : json -> str.
Variable json_loads : str -> option json.

(** [str(Path(directory) / name)] of pathlib: the text of the path that
    joins a file name to a directory, in the notation of the platform. *)
Variable path_join : str -> str -> str.

Definition _generate_session_id (now : datetime) : str :=
  lit "clank_session_" ++ strftime now.

(** [__init__]: [now_id] and [now_start] are its two clock readings.
    [save_directory] holds the argument of [Path(save_directory)]. *)
Definition init (save_directory : str) (now_id now_start : datetime)
  : state Session :=
  {| save_directory := save_directory;
     current_session :=
       {| session_id := _generate_session_id now_id;
          start_time := now_start;
          cards_seen := []; scenarios := [];
          game_events := []; screenshots := [];
          end_time := None |} |}.

Definition card_line (card : CardEvent) : str :=
  lit "  - " ++ card_name card ++ lit " (at "
    ++ isoformat (card_timestamp card) ++ lit ")" ++ ["010"%char].

Definition event_line (event : GameEvent) : str :=
  lit "  - " ++ event_type event ++ lit ": " ++ description event
    ++ ["010"%char].

(** The f-string that opens the report; its pictographs are the UTF-8
    bytes of the source file. *)
Definition report_head (stats : Stats) : str :=
  ["010"%char]
    ++ lit "🎮 CLANK! Tracker Session Report" ++ ["010"%char]
    ++ lit "================================" ++ ["010"%char]
    ++ ["010"%char]
    ++ lit "Session ID: " ++ stats_session_id stats ++ ["010"%char]
    ++ lit "Duration: " ++ duration stats ++ ["010"%char]
    ++ lit "Cards Detected: " ++ str_of_nat (unique_cards_seen stats)
    ++ ["010"%char]
    ++ lit "Game Events: " ++ str_of_nat (total_events stats)
    ++ ["010"%char]
    ++ lit "Screenshots: " ++ str_of_nat (screenshots_captured stats)
    ++ ["010"%char]
    ++ ["010"%char]
    ++ lit "📄 Cards Seen:" ++ ["010"%char].

Definition generate_session_report (now : datetime) (t : state Session)
  : str :=
  let stats := get_session_stats now t in
  let report := report_head stats in
  let report :=
    fold_left (fun report card => report ++ card_line card)
              (cards_seen (current_session t)) report in
  let report := report ++ ["010"%char] ++ lit "🎯 Game Events:" ++ ["010"%char] in
  fold_left (fun report event => report ++ event_line event)
            (slice_from (-5) (game_events (current_session t))) report.

Definition card_to_json (c : CardEvent) : json :=
  JDict [ (lit "card_name", JStr (card_name c));
          (lit "timestamp", JStr (isoformat (card_timestamp c)));
          (lit "screenshot",
            match screenshot c with Some p => JStr p | None => JNull end);
          (lit "confidence", JStr (confidence c)) ].

Definition event_to_json (e : GameEvent) : json :=
  JDict [ (lit "event_type", JStr (event_type e));
          (lit "description", JStr (description e));
          (lit "timestamp", JStr (isoformat (event_timestamp e)));
          (lit "data", data e) ].

Definition screenshot_to_json (x : Screenshot) : json :=
  JDict [ (lit "path", JStr (path x));
          (lit "timestamp", JStr (isoformat (shot_timestamp x)));
          (lit "ocr_results", ocr_results x) ].

(** The dictionary [self.current_session], as [json.dump] sees it. *)
Definition session_to_json (s : Session) : json :=
  JDict
    ([ (lit "session_id", JStr (session_id s));
       (lit "start_time", JStr (isoformat (start_time s)));
       (lit "cards_seen", JList (map card_to_json (cards_seen s)));
       (lit "scenarios", JList (map JStr (scenarios s)));
       (lit "game_events", JList (map event_to_json (game_events s)));
       (lit "screenshots", JList (map screenshot_to_json (screenshots s))) ]
     ++ match end_time s with
        | Some e => [ (lit "end_time", JStr (isoformat e)) ]
        | None => []
        end).

(** The files, by path. *)
Definition files := list (str * str).

Fixpoint read (fs : files) (p : str) : option str :=
  match fs with
  | [] => None
  | (q, text) :: fs' => if str_eqb p q then Some text else read fs' p
  end.

Definition write (fs : files) (p : str) (text : str) : files :=
  (p, text) :: fs.

(** Returns the written path, the tracker and the files; the file is
    opened through the path object and the function returns the text of
    that path. *)
Definition save_session (now : datetime) (fs : files) (t : state Session)
  : str * state Session * files :=
  let session_file :=
    path_join (save_directory t)
              (session_id (current_session t) ++ lit ".json") in
  let s := set_end_time (current_session t) now in
  let fs := write fs session_file (json_dumps (session_to_json s)) in
  (session_file, set_session t s, fs).

Inductive exn : Type :=
| FileNotFoundError
| JSONDecodeError.

(** Either the exception that left the tracker as it was, or the
    tracker holding the parsed document. *)
Definition load_session {S : Type} (fs : files) (t : state S)
           (session_file : str) : (exn * state S) + state json :=
  match read fs session_file with
  | None => inl (FileNotFoundError, t)
  | Some text =>
      match json_loads text with
      | None => inl (JSONDecodeError, t)
      | Some v => inr (set_session t v)
      end
  end.

(** The calls a client can make on a tracker it did not load, each
    with the clock reading it observes. *)
Inductive op : Type :=
| TrackCardDetection (card_names : list str) (screenshot_path : option str)
| TrackGameEvent (event_type description : str) (data : json)
| TrackScreenshot (screenshot_path : str) (ocr_results : json)
| IdentifyScenario (detected_cards : list str)
| SaveSession
| GenerateSessionReport
| GetSessionStats.

Definition step (w : state Session * files) (c : op * datetime)
  : state Session * files :=
  let (t, fs) := w in
  let (o, now) := c in
  match o with
  | TrackCardDetection names p => (track_card_detection now t names p, fs)
  | TrackGameEvent ty d x => (track_game_event now t ty d x, fs)
  | TrackScreenshot p r => (track_screenshot now t p r, fs)
  | IdentifyScenario names => let _ := identify_scenario names in (t, fs)
  | SaveSession =>
      let '(_, t', fs') := save_session now fs t in (t', fs')
  | GenerateSessionReport =>
      let _ := generate_session_report now t in (t, fs)
  | GetSessionStats => let _ := get_session_stats now t in (t, fs)
  end.

Definition run (w : state Session * files) (cs : list (op * datetime))
  : state Session * files :=
  fold_left step cs w.

End Library.

End GameTracker.


Import GameTracker.

(* ================================================================= *)
(** ** cli.py *)

Module ClankTrackerCLI.

(** The branches of the command loop of [interactive_mode]. *)
Inductive command : Type :=
| Quit
| Capture
| Ocr
| OcrFile (image_path : str)
| Track
| Stats
| Report
| Save
| Help
| Auto
| Unknown.

(** The decoding of one line of input in [interactive_mode]: the line is
    stripped and lower-cased, then matched by the chain of tests. *)
Definition dispatch (input : str) : command :=
  let command := lower (strip input) in
  if str_eqb command (lit "quit") || str_eqb command (lit "exit") then Quit
  else if str_eqb command (lit "capture") then Capture
  else if str_eqb command (lit "ocr") then Ocr
  else if startswith (lit "ocr ") command then
    OcrFile (strip (slice_from 4 command))
  else if str_eqb command (lit "track") then Track
  else if str_eqb command (lit "stats") then Stats
  else if str_eqb command (lit "report") then Report
  else if str_eqb command (lit "save") then Save
  else if str_eqb command (lit "help") then Help
  else if str_eqb command (lit "auto") then Auto
  else Unknown.

(** The options that [argparse] hands to [main]. *)
Record Args : Type := {
  args_test : bool;
  args_image : option str;
  args_auto : bool;
  args_interval : Z
}.

(** What [main] goes on to run. *)
Inductive mode : Type :=
| ComponentTests (image_path : option str)
| AutoMonitoring
| InteractiveShell.

Definition main (args : Args) : mode :=
  if args_test args then ComponentTests (args_image args)
  else if args_auto args then AutoMonitoring
  else InteractiveShell.

Section Components.

Variable bbox : Type.

(** [PIL.Image.open(path)]; [None] when it raises. *)
Variable image_open : str -> option ScreenCapture.Image.

Variable bgr2gray : Z * Z * Z -> Z.
Variable otsu : list (list Z) -> Z.
Variable image_to_string : ScreenCapture.Image -> option str.
Variable readtext :
  ScreenCapture.Image -> option (list (bbox * str * float)).

(** [screen] is what [capture_game_area()] returns at the time of the
    call, [None] when it raises.  Any exception ends the method with the
    empty list. *)
Definition test_ocr_processing (screen : option ScreenCapture.Image)
           (image_path : option str)
  : logged ScreenCapture.Image (list str) :=
  let image :=
    match image_path with
    | Some ((_ :: _) as path) => image_open path
    | _ => screen
    end in
  match image with
  | None => ret []
  | Some image =>
      match ScreenCapture.preprocess_for_ocr bgr2gray otsu image with
      | None => ret []
      | Some processed_image =>
          bind (extract_text_pytesseract image_to_string processed_image)
               (fun tesseract_text =>
          bind (extract_text_easyocr readtext processed_image)
               (fun easyocr_results =>
          bind (extract_card_names image_to_string readtext image)
               (fun card_names =>
          ret card_names)))
      end
  end.

(** One pass of the loop of [auto_monitoring_mode]: the tracker after the
    pass and the seconds it then sleeps. *)
Definition auto_pass (t : state Session)
           (c : option ScreenCapture.Image * datetime)
  : logged ScreenCapture.Image (state Session * Z) :=
  let interval := 5%Z in
  let (screen, now) := c in
  bind (test_ocr_processing screen None) (fun cards =>
  ret (match cards with
       | [] => t
       | _ :: _ => track_card_detection now t cards None
       end,
       interval)).

(** The passes made before the interrupt, one per screen content and
    clock reading: the tracker, the sleeps and the adapter calls. *)
Fixpoint auto_monitoring_mode (t : state Session)
         (passes : list (option ScreenCapture.Image * datetime))
  : logged ScreenCapture.Image (state Session * list Z) :=
  match passes with
  | [] => ret (t, [])
  | c :: passes' =>
      bind (auto_pass t c) (fun r =>
      bind (auto_monitoring_mode (fst r) passes') (fun r' =>
      ret (fst r', snd r :: snd r')))
  end.

End Components.

Arguments test_ocr_processing {bbox} image_open bgr2gray otsu
  image_to_string readtext screen image_path.
Arguments auto_pass {bbox} image_open bgr2gray otsu
  image_to_string readtext t c.
Arguments auto_monitoring_mode {bbox} image_open bgr2gray otsu
  image_to_string readtext t passes.

End ClankTrackerCLI.

(* ================================================================= *)
(** ** gui.py *)

Module ClankTrackerGUI.

(** [timestamp.split('T')[1].split('.')[0]] of [update_cards_display]
    and [update_events_display]; [None] when the index is out of
    range. *)
Definition time_part (timestamp : str) : option str :=
  match nth_error (split_sep "T" timestamp) 1 with
  | None => None
  | Some rest => nth_error (split_sep "." rest) 0
  end.

Section Components.

Variables image bbox : Type.
Variable image_to_string : image -> option str.
Variable readtext : image -> option (list (bbox * str * float)).

(** The body shared by [manual_capture], [process_current_image] and
    [monitoring_loop]: extract, and track when something was found. *)
Definition extract_and_track (now : datetime) (t : state Session)
           (screenshot : image) (screenshot_path : str)
  : logged image (state Session) :=
  bind (extract_card_names image_to_string readtext screenshot)
       (fun cards =>
  ret (match cards with
       | [] => t
       | _ :: _ => track_card_detection now t cards (Some screenshot_path)
       end)).

(** [last_screenshot] is [None] before any capture or load. *)
Definition process_current_image (now : datetime) (t : state Session)
           (last_screenshot : option image) : logged image (state Session) :=
  match last_screenshot with
  | Some screenshot =>
      extract_and_track now t screenshot (lit "processed_image.png")
  | None => ret t
  end.

(** [screen] is what [capture_game_area()] returns, [None] when it
    raises. *)
Definition manual_capture (now : datetime) (t : state Session)
           (screen : option image) : logged image (state Session) :=
  match screen with
  | Some screenshot =>
      extract_and_track now t screenshot (lit "manual_capture.png")
  | None => ret t
  end.

(** One pass of [monitoring_loop]; [hms] is [time.strftime("%H:%M:%S")]. *)
Definition monitoring_pass (now : datetime) (hms : str) (t : state Session)
           (screen : option image) : logged image (state Session) :=
  match screen with
  | Some screenshot =>
      extract_and_track now t screenshot
        (lit "screenshot_" ++ remove_char ":" hms ++ lit ".png")
  | None => ret t
  end.

End Components.

Arguments extract_and_track {image bbox} image_to_string readtext
  now t screenshot screenshot_path.
Arguments process_current_image {image bbox} image_to_string readtext
  now t last_screenshot.
Arguments manual_capture {image bbox} image_to_string readtext now t screen.
Arguments monitoring_pass {image bbox} image_to_string readtext
  now hms t screen.

End ClankTrackerGUI.

(* ================================================================= *)
(** ** The specification's wording *)

(** The definitions of this module follow the sentences of the
    specification, not the source; the theorems compare them with the
    embedding of the source. *)
Module Spec.

(** "Deduplicate by exact string equality keeping first occurrence": an
    entry stays and every later entry equal to it goes. *)
Fixpoint dedup_first (xs : list str) : list str :=
  match xs with
  | [] => []
  | x :: xs' => x :: filter (fun y => negb (str_eqb y x)) (dedup_first xs')
  end.

(** "Collapse consecutive whitespace to single spaces": every maximal
    run of whitespace becomes one space. *)
Fixpoint collapse_from (in_run : bool) (s : str) : str :=
  match s with
  | [] => []
  | c :: s' =>
      if isspace c then
        (if in_run then collapse_from true s'
         else " "%char :: collapse_from true s')
      else c :: collapse_from false s'
  end.

Definition collapse_ws (s : str) : str := collapse_from false s.

(** "Strip every character that is not alphanumeric, whitespace, a
    hyphen, or an apostrophe." *)
Definition allowed (c : ascii) : bool :=
  isalpha c || isdigit c || isspace c || Ascii.eqb c "-" || Ascii.eqb c "'".

(** "First letter of every whitespace-delimited word upper-cased, the
    rest lower-cased." *)
Fixpoint title_words_from (at_word_start : bool) (s : str) : str :=
  match s with
  | [] => []
  | c :: s' =>
      if isspace c then c :: title_words_from true s'
      else (if at_word_start then toupper c else tolower c)
             :: title_words_from false s'
  end.

Definition title_words (s : str) : str := title_words_from true s.

(** The cleaning as the specification words it. *)
Definition clean (s : str) : str :=
  strip (title_words (filter allowed (collapse_ws s))).

(** What the source's title case amounts to: a letter is upper-cased when
    it opens the text or follows a character that is not a letter, and
    lower-cased when it follows a letter; other characters stay. *)
Fixpoint title_runs_from (after_letter : bool) (s : str) : str :=
  match s with
  | [] => []
  | c :: s' =>
      (if isalpha c then (if after_letter then tolower c else toupper c)
       else c) :: title_runs_from (isalpha c) s'
  end.

Definition title_runs (s : str) : str := title_runs_from false s.

(** The class the source keeps: the specification's and the underscore. *)
Definition allowed_or_underscore (c : ascii) : bool :=
  allowed c || Ascii.eqb c "_".

(** The cleaning with the two amendments. *)
Definition clean_amended (s : str) : str :=
  strip (title_runs (filter allowed_or_underscore (collapse_ws s))).

(** The alphabet, written out; a letter is a character of one of the
    two rows, and lower-casing replaces a character of the upper row by
    the one below it. *)
Definition upper_row : str := lit "ABCDEFGHIJKLMNOPQRSTUVWXYZ".
Definition lower_row : str := lit "abcdefghijklmnopqrstuvwxyz".

Definition is_letter (c : ascii) : bool :=
  existsb (Ascii.eqb c) (upper_row ++ lower_row).

Fixpoint translate (from to : str) (c : ascii) : ascii :=
  match from, to with
  | f :: from', t :: to' => if Ascii.eqb c f then t else translate from' to' c
  | _, _ => c
  end.

Definition lower_cased (text : str) : str :=
  map (translate upper_row lower_row) text.

(** "Alphabetic characters": how many characters of the text are
    letters. *)
Fixpoint letters (text : str) : nat :=
  match text with
  | [] => 0
  | c :: text' => (if is_letter c then 1 else 0) + letters text'
  end.

(** [needle] occurs in [hay]: at some offset, the next [length needle]
    characters of [hay] are [needle]. *)
Definition occurs (needle hay : str) : bool :=
  existsb
    (fun offset =>
       if list_eq_dec ascii_dec
            (firstn (length needle) (skipn offset hay)) needle
       then true else false)
    (seq 0 (S (length hay))).

(** The keyword list of the specification. *)
Definition keywords : list str :=
  [ lit "adventure"; lit "artifact"; lit "companion"; lit "equipment";
    lit "skill"; lit "market"; lit "dungeon"; lit "major secret";
    lit "minor secret"; lit "clank"; lit "skill point"; lit "movement";
    lit "attack"; lit "gold" ].

(** "Reject if length < 3; accept if any keyword occurs in the
    lower-cased text; else accept iff 3 <= len <= 30 and at least 70% of
    the characters are alphabetic." *)
Definition likely_card_name (text : str) : bool :=
  if length text <? 3 then false
  else if existsb (fun keyword => occurs keyword (lower_cased text)) keywords
  then true
  else (3 <=? length text) && (length text <=? 30)
       && (70 * length text <=? 100 * letters text).

(** The same test on the counts and the string functions of the source,
    the comparison of doubles replaced by one of integers. *)
Definition likely (text : str) : bool :=
  if length text <? 3 then false
  else if existsb (fun keyword => contains keyword (lower text)) card_keywords
  then true
  else (3 <=? length text) && (length text <=? 30)
       && (70 * length text <=? 100 * letter_count text).

(** "Keep only regions with confidence strictly greater than 0.7." *)
Definition confident (r : str * float) : bool :=
  PrimFloat.ltb 0.7%float (snd r).

(** The texts that pass cleaning and then the heuristic, in order. *)
Definition surviving (texts : list str) : list str :=
  filter is_likely_card_name (map clean_text texts).

(** Engine A's surviving lines, then Engine B's surviving regions,
    deduplicated. *)
Definition extracted (tesseract_text : str) (regions : list (str * float))
  : list str :=
  dedup_first
    (surviving (split_sep "010" tesseract_text)
     ++ surviving (map fst (filter confident regions))).

(** The ordered rule list of the scenario classifier. *)
Definition rules : list (str * str) :=
  [ (lit "dungeon", lit "Dungeon Exploration");
    (lit "market", lit "Market Phase");
    (lit "artifact", lit "Artifact Acquisition") ].

Definition rule_fires (names : list str) (rule : str * str) : bool :=
  existsb (fun name => contains (fst rule) (lower name)) names.

(** First-match priority over [rules]. *)
Definition classify_scenario (names : list str) : str :=
  match find (rule_fires names) rules with
  | Some rule => snd rule
  | None => lit "Unknown Scenario"
  end.

(** The last [n] entries of a list. *)
Definition last_n {A : Type} (n : nat) (xs : list A) : list A :=
  skipn (length xs - n) xs.

(** The text of the report, piece by piece: the header with the
    identifier, the duration and the three counts; one line per card,
    with its name and its timestamp; the heading of the events; one line
    per event, with its type and its description. *)
Definition newline : str := ["010"%char].

Definition header (id elapsed : str) (cards events shots : nat) : str :=
  newline
    ++ lit "🎮 CLANK! Tracker Session Report" ++ newline
    ++ lit "================================" ++ newline
    ++ newline
    ++ lit "Session ID: " ++ id ++ newline
    ++ lit "Duration: " ++ elapsed ++ newline
    ++ lit "Cards Detected: " ++ str_of_nat cards ++ newline
    ++ lit "Game Events: " ++ str_of_nat events ++ newline
    ++ lit "Screenshots: " ++ str_of_nat shots ++ newline
    ++ newline
    ++ lit "📄 Cards Seen:" ++ newline.

Definition card_entry (name stamp : str) : str :=
  lit "  - " ++ name ++ lit " (at " ++ stamp ++ lit ")" ++ newline.

Definition events_heading : str :=
  newline ++ lit "🎯 Game Events:" ++ newline.

Definition event_entry (type_ description : str) : str :=
  lit "  - " ++ type_ ++ lit ": " ++ description ++ newline.

End Spec.

(* ================================================================= *)
(** ** Concrete inputs *)

Module Examples.

Import ScreenCapture.

Definition black_pixel : Image := RGB [[(0, 0, 0)%Z]].

(** Stand-ins for the libraries, for running the pipeline on
    [black_pixel]: integer luma, a fixed threshold, and engines that read
    a card name on a colour image only. *)
Definition luma (p : Z * Z * Z) : Z :=
  let '(b, g, r) := p in ((299 * r + 587 * g + 114 * b) / 1000)%Z.

Definition mid_threshold (gray : list (list Z)) : Z := 127%Z.

Definition reads_colour (img : Image) : option str :=
  match img with
  | RGB _ => Some (lit "Dungeon Room")
  | L _ => Some []
  end.

Definition finds_nothing (img : Image) : option (list (unit * str * float)) :=
  Some [].

(** A [json.loads] that accepts the empty list and the empty object, and
    rejects every other text. *)
Definition loads_empty (text : str) : option json :=
  if str_eqb text (lit "[]") then Some (JList [])
  else if str_eqb text (lit "{}") then Some (JDict [])
  else None.

Definition no_format (t : datetime) : str := [].
Definition no_dumps (v : json) : str := lit "{}".

Definition corrupted_files : list (str * str) :=
  [ (lit "corrupted.json", lit "{ invalid json content");
    (lit "empty.json", lit "{}") ].

Definition event (n : nat) : GameEvent :=
  {| event_type := lit "event_" ++ str_of_nat n;
     description := lit "Event number " ++ str_of_nat n;
     event_timestamp := Z.of_nat n;
     data := JDict [] |}.

Definition fresh : state Session := init no_format (lit "docs") 0%Z 0%Z.

(** Seven events recorded on a fresh tracker, at instants 1 to 7. *)
Definition seven_events : state Session :=
  fold_left
    (fun t n =>
       track_game_event (Z.of_nat n) t (event_type (event n))
                        (description (event n)) JNull)
    (seq 1 7) fresh.

(** A timestamp format that shows the instant: [t5] for instant 5. *)
Definition stamp (t : datetime) : str := lit "t" ++ str_of_nat (Z.to_nat t).

(** The seven events, after one call that detected two cards at
    instant 5, one of them twice. *)
Definition busy : state Session :=
  track_card_detection 5%Z seven_events
    [lit "Dungeon Room"; lit "Gold Coin"; lit "Dungeon Room"] None.

(** One hour, two minutes and five seconds, in microseconds. *)
Definition later : datetime := 3725000000%Z.

(** The report of [busy] at [later], as the source prints it. *)
Definition busy_report : str :=
  lit "
🎮 CLANK! Tracker Session Report
================================

Session ID: clank_session_
Duration: 01:02:05
Cards Detected: 2
Game Events: 7
Screenshots: 0

📄 Cards Seen:
  - Dungeon Room (at t5)
  - Gold Coin (at t5)

🎯 Game Events:
  - event_3: Event number 3
  - event_4: Event number 4
  - event_5: Event number 5
  - event_6: Event number 6
  - event_7: Event number 7
".

(** Joining a file name to a plain relative directory, on POSIX. *)
Definition posix_join (directory name : str) : str :=
  directory ++ lit "/" ++ name.

(** The document of the fresh session saved at instant 9, and a
    [json.loads] that reads the text [no_dumps] writes as that
    document. *)
Definition saved_doc : json :=
  session_to_json no_format (set_end_time (current_session fresh) 9%Z).

Definition loads_saved (text : str) : option json :=
  if str_eqb text (lit "{}") then Some saved_doc else None.

(** The two calls of the specification's deduplication example. *)
Definition two_calls : list (list str * option str * datetime) :=
  [ ([lit "Adventure Card"; lit "Adventure Card"; lit "New Card"], None, 10%Z);
    ([lit "Adventure Card"], None, 20%Z) ].

End Examples.

(* ================================================================= *)
(** ** Auxiliary notions of the proofs *)

(** A text of ASCII characters, the code points U+0000..U+007F that the
    embedding of [str] covers. *)
Definition ascii_text (s : str) : Prop :=
  forallb (fun c => code c <? 128) s = true.

(** A string of whitespace only. *)
Definition spaces (s : str) : Prop := Forall (fun c => isspace c = true) s.

(** The comparison at the end of [is_likely_card_name], on the two
    counts. *)
Definition ratio_test (len letters : nat) : bool :=
  PrimFloat.leb (PrimFloat.mul (float_of_nat len) 0.7%float)
                (float_of_nat letters).

(** [ratio_test] against exact arithmetic, for every length up to [n]. *)
Definition ratio_table (n : nat) : bool :=
  forallb
    (fun len =>
       forallb
         (fun k => Bool.eqb (ratio_test len k) (70 * len <=? 100 * k))
         (seq 0 (S len)))
    (seq 0 (S n)).

(** The names in [cards_seen], in order. *)
Definition seen (t : state Session) : list str :=
  map card_name (cards_seen (current_session t)).

(** The event that [track_card_detection] builds for a name. *)
Definition detected (timestamp : datetime) (screenshot_path : option str)
           (name : str) : CardEvent :=
  {| card_name := name; card_timestamp := timestamp;
     screenshot := screenshot_path; confidence := lit "detected" |}.

(** One call of [track_card_detection]: the names, the screenshot path
    and the clock reading; and a sequence of such calls. *)
Definition ingest (t : state Session)
           (c : list str * option str * datetime) : state Session :=
  let '(card_names, screenshot_path, now) := c in
  track_card_detection now t card_names screenshot_path.

Definition ingest_all (t : state Session)
           (calls : list (list str * option str * datetime))
  : state Session :=
  fold_left ingest calls t.

Definition names_of (calls : list (list str * option str * datetime))
  : list str :=
  concat (map (fun c => fst (fst c)) calls).

(** The characters a cleaned text can hold: letters, digits, the
    underscore, the hyphen, the apostrophe and the plain space. *)
Definition name_char (c : ascii) : bool :=
  isalpha c || isdigit c || Ascii.eqb c "_" || Ascii.eqb c "-"
  || Ascii.eqb c "'" || Ascii.eqb c " ".

(** A whitespace character that is not the plain space is absent. *)
Definition plain_space (c : ascii) : Prop :=
  isspace c = true -> c = " "%char.

(** The card list after the names not yet seen are appended, each once
    and in order, with the events [track_card_detection] builds. *)
Definition appended (now : datetime) (screenshot_path : option str)
           (t : state Session) (names : list str) : list CardEvent :=
  cards_seen (current_session t)
  ++ map (detected now screenshot_path)
         (filter (fun n => negb (mem n (seen t))) names).

(** The two products of [capture_game_area] against integer division,
    at the screen dimension [w]. *)
Definition area_exact (w : Z) : bool :=
  let x := PrimFloat.of_uint63 (Uint63.of_Z w) in
  match int_of_float (PrimFloat.mul x 0.1%float),
        int_of_float (PrimFloat.mul x 0.8%float)
  with
  | Some margin, Some extent =>
      (margin =? w / 10)%Z && (extent =? 8 * w / 10)%Z
  | _, _ => false
  end.

(** [area_exact] at the [count] dimensions from [w] on. *)
Fixpoint area_table (count : nat) (w : Z) : bool :=
  match count with
  | O => true
  | S count' => area_exact w && area_table count' (w + 1)%Z
  end.

(** The width of the minutes and seconds fields, for 0..59. *)
Definition two_digit_table : bool :=
  forallb (fun n => length (format_02d (Z.of_nat n)) =? 2) (seq 0 60).

(** The duration text of a session that started at instant 0 and has
    not been saved, read at instant [d]. *)
Definition clock_text (d : Z) : str :=
  _calculate_session_duration d (current_session Examples.fresh).

(** The text of [n] seconds: whole hours, minutes and seconds. *)
Definition hms_text (n : Z) : str :=
  format_02d (n / 3600) ++ lit ":" ++ format_02d (n mod 3600 / 60)
    ++ lit ":" ++ format_02d (n mod 60).

(** [clock_text] against [hms_text], at [n] seconds and at one
    microsecond short of [n + 1] seconds. *)
Definition duration_exact (n : Z) : bool :=
  str_eqb (clock_text (n * 1000000)) (hms_text n)
  && str_eqb (clock_text (n * 1000000 + 999999)) (hms_text n).

(** [clock_text] at [h] hours, and at one microsecond short of
    [h + 1] hours. *)
Definition hour_exact (h : Z) : bool :=
  str_eqb (clock_text (h * 3600000000)) (format_02d h ++ lit ":00:00")
  && str_eqb (clock_text (h * 3600000000 + 3599999999))
             (format_02d h ++ lit ":59:59").

(** [p] at the [count] integers from [n] on. *)
Fixpoint holds_from (p : Z -> bool) (count : nat) (n : Z) : bool :=
  match count with
  | O => true
  | S count' => if p n then holds_from p count' (n + 1)%Z else false
  end.

(** The part of [s] before the first [sep], and the part after it. *)
Fixpoint before (sep : ascii) (s : str) : str :=
  match s with
  | [] => []
  | c :: s' => if Ascii.eqb c sep then [] else c :: before sep s'
  end.

Fixpoint after (sep : ascii) (s : str) : option str :=
  match s with
  | [] => None
  | c :: s' => if Ascii.eqb c sep then Some s' else after sep s'
  end.

(** What a run of calls recorded. *)
Definition is_event (c : op * datetime) : bool :=
  match fst c with
  | TrackGameEvent _ _ _ => true
  | _ => false
  end.

Definition is_screenshot (c : op * datetime) : bool :=
  match fst c with
  | TrackScreenshot _ _ => true
  | _ => false
  end.

Definition names_detected (cs : list (op * datetime)) : list str :=
  concat (map (fun c => match fst c with
                        | TrackCardDetection names _ => names
                        | _ => []
                        end) cs).

(** A text in the form cleaning produces: only name characters, no
    whitespace at either end, already in title case. *)
Definition tidy (z : str) : Prop :=
  Forall (fun c => name_char c = true) z /\ strip z = z /\ title z = z.

(* ================================================================= *)
(** ** Characters and strings *)

Ltac all_chars c := destruct c as [[] [] [] [] [] [] [] []].

Ltac by_table c :=
  all_chars c; vm_compute; intros;
  repeat split; solve [ reflexivity | discriminate | congruence ].

Lemma isspace_uncased (c : ascii) :
  isspace c = true -> islower c = false /\ isupper c = false.
Proof. by_table c. Qed.

Lemma isspace_keeps (c : ascii) : isspace c = true -> keeps c = true.
Proof.
  intros H. unfold keeps. rewrite H. now rewrite !orb_true_r.
Qed.

Lemma keeps_allowed (c : ascii) : keeps c = Spec.allowed_or_underscore c.
Proof. by_table c. Qed.

Lemma islower_not_isupper (c : ascii) : islower c = true -> isupper c = false.
Proof. by_table c. Qed.

Lemma str_eqb_eq (a b : str) : str_eqb a b = true <-> a = b.
Proof.
  unfold str_eqb. destruct (list_eq_dec ascii_dec a b); split; congruence.
Qed.

Lemma str_eqb_refl (a : str) : str_eqb a a = true.
Proof. now apply str_eqb_eq. Qed.

Lemma str_eqb_sym (a b : str) : str_eqb a b = str_eqb b a.
Proof.
  unfold str_eqb.
  destruct (list_eq_dec ascii_dec a b), (list_eq_dec ascii_dec b a); congruence.
Qed.

Lemma mem_In (x : str) (xs : list str) : mem x xs = true <-> In x xs.
Proof.
  unfold mem. rewrite existsb_exists. split.
  - intros [y [Hin Heq]]. apply str_eqb_eq in Heq. now subst.
  - intros Hin. exists x. split; [assumption | apply str_eqb_refl].
Qed.

Lemma mem_false (x : str) (xs : list str) : mem x xs = false <-> ~ In x xs.
Proof.
  rewrite <- mem_In. destruct (mem x xs); split; congruence.
Qed.

(** *** Whitespace runs *)

Lemma spaces_nil : spaces [].
Proof. constructor. Qed.

Lemma spaces_one : spaces [" "%char].
Proof. repeat constructor. Qed.

#[local] Hint Resolve spaces_nil spaces_one : core.

Lemma lstrip_spaces (p : str) : spaces p -> lstrip p = [].
Proof.
  induction 1 as [| c p Hc _ IH]; simpl; [reflexivity |].
  now rewrite Hc.
Qed.

Lemma lstrip_app (y z : str) :
  lstrip (y ++ z) = match lstrip y with
                    | [] => lstrip z
                    | _ :: _ => lstrip y ++ z
                    end.
Proof.
  induction y as [| c y IH]; simpl; [reflexivity |].
  destruct (isspace c); [exact IH | reflexivity].
Qed.

Lemma rstrip_app_spaces (y p : str) : spaces p -> rstrip (y ++ p) = rstrip y.
Proof.
  intros Hp. unfold rstrip. rewrite rev_app_distr, lstrip_app.
  rewrite lstrip_spaces by now apply Forall_rev.
  reflexivity.
Qed.

Lemma strip_padded (pre y post : str) :
  spaces pre -> spaces post -> strip (pre ++ y ++ post) = strip y.
Proof.
  intros Hpre Hpost. unfold strip.
  rewrite lstrip_app, (lstrip_spaces pre Hpre), lstrip_app.
  destruct (lstrip y) as [| c r] eqn:E.
  - now rewrite (lstrip_spaces post Hpost).
  - now apply rstrip_app_spaces.
Qed.

Lemma filter_spaces (p : str) : spaces p -> filter keeps p = p.
Proof.
  induction 1 as [| c p Hc _ IH]; simpl; [reflexivity |].
  now rewrite (isspace_keeps c Hc), IH.
Qed.

Lemma title_from_spaces (b : bool) (p : str) : spaces p -> title_from b p = p.
Proof.
  intros Hp. revert b.
  induction Hp as [| c p Hc _ IH]; intros b; simpl; [reflexivity |].
  destruct (isspace_uncased c Hc) as [Hl Hu].
  now rewrite Hl, Hu, IH.
Qed.

Lemma title_from_app_spaces (b : bool) (y p : str) :
  spaces p -> title_from b (y ++ p) = title_from b y ++ p.
Proof.
  intros Hp. revert b.
  induction y as [| c y IH]; intros b; simpl.
  - now apply title_from_spaces.
  - destruct (islower c); [| destruct (isupper c)]; now rewrite IH.
Qed.

Lemma title_spaces_app (p y : str) :
  spaces p -> title (p ++ y) = p ++ title y.
Proof.
  unfold title.
  induction 1 as [| c p Hc _ IH]; simpl; [reflexivity |].
  destruct (isspace_uncased c Hc) as [Hl Hu].
  now rewrite Hl, Hu, IH.
Qed.

Lemma title_padded (pre y post : str) :
  spaces pre -> spaces post -> title (pre ++ y ++ post) = pre ++ title y ++ post.
Proof.
  intros Hpre Hpost. rewrite title_spaces_app by assumption.
  unfold title. now rewrite title_from_app_spaces.
Qed.

Lemma title_from_runs (b : bool) (s : str) :
  title_from b s = Spec.title_runs_from b s.
Proof.
  revert b. induction s as [| c s IH]; intros b; simpl; [reflexivity |].
  unfold isalpha.
  destruct (islower c) eqn:Hl.
  - rewrite (islower_not_isupper c Hl). simpl. rewrite IH.
    unfold tolower. rewrite (islower_not_isupper c Hl). reflexivity.
  - destruct (isupper c) eqn:Hu; simpl; rewrite IH; [| reflexivity].
    unfold toupper. rewrite Hl. reflexivity.
Qed.

(** *** Splitting on whitespace and joining with one space *)

Lemma emit_cons (w : str) (ws : list str) : w <> [] -> emit w ws = w :: ws.
Proof. destruct w; [congruence | reflexivity]. Qed.

Lemma app_one_not_nil (w : str) (c : ascii) : w ++ [c] <> [].
Proof. destruct w; discriminate. Qed.

Lemma split_from_not_nil (s w : str) : w <> [] -> split_from w s <> [].
Proof.
  revert w. induction s as [| c s IH]; intros w Hw; simpl.
  - rewrite emit_cons by assumption. discriminate.
  - destruct (isspace c).
    + rewrite emit_cons by assumption. discriminate.
    + apply IH, app_one_not_nil.
Qed.

Lemma split_nil_collapse (s : str) :
  split_from [] s = [] -> Spec.collapse_from true s = [].
Proof.
  induction s as [| c s IH]; simpl; [reflexivity |].
  destruct (isspace c); simpl.
  - exact IH.
  - intros H. exfalso. revert H. apply split_from_not_nil. discriminate.
Qed.

Lemma collapse_join (s : str) :
  (forall w, w <> [] ->
     exists post, spaces post /\
       w ++ Spec.collapse_from false s
       = join [" "%char] (split_from w s) ++ post) /\
  (exists post, spaces post /\
     Spec.collapse_from true s = join [" "%char] (split_from [] s) ++ post).
Proof.
  induction s as [| c s [IH1 IH2]]; simpl.
  - split.
    + intros w Hw. exists []. rewrite emit_cons by assumption.
      simpl. auto.
    + exists []. auto.
  - destruct (isspace c) eqn:Hc.
    + split; [| exact IH2].
      intros w Hw. rewrite emit_cons by assumption.
      destruct (split_from [] s) as [| t ts] eqn:E.
      * exists [" "%char]. rewrite (split_nil_collapse s E). simpl. auto.
      * destruct IH2 as [post [Hp Heq]]. exists post. split; [assumption |].
        rewrite Heq. simpl. now rewrite <- !app_assoc.
    + split.
      * intros w Hw.
        destruct (IH1 (w ++ [c]) (app_one_not_nil w c)) as [post [Hp Heq]].
        exists post. split; [assumption |].
        rewrite <- Heq, <- app_assoc. reflexivity.
      * destruct (IH1 [c]) as [post [Hp Heq]]; [discriminate |].
        exists post. split; [assumption |]. exact Heq.
Qed.

Lemma collapse_ws_join (s : str) :
  exists pre post, spaces pre /\ spaces post /\
    Spec.collapse_ws s = pre ++ join (lit " ") (split s) ++ post.
Proof.
  unfold Spec.collapse_ws, split. change (lit " ") with [" "%char].
  destruct s as [| c s]; simpl.
  - exists [], []. auto.
  - destruct (collapse_join s) as [H1 H2].
    destruct (isspace c).
    + destruct H2 as [post [Hp Heq]]. exists [" "%char], post.
      rewrite Heq. auto.
    + destruct (H1 [c]) as [post [Hp Heq]]; [discriminate |].
      exists [], post. simpl in *. auto.
Qed.

(* ================================================================= *)
(** ** Cleaning *)

(** C5 (as amended): for every string, [clean_text] is: collapse every
    run of whitespace to one space; strip every character that is not
    alphanumeric, an underscore, whitespace, a hyphen or an apostrophe;
    upper-case each letter that opens the text or follows a non-letter
    and lower-case each letter that follows a letter; trim. *)
Theorem clean_text_amended (s : str) : clean_text s = Spec.clean_amended s.
Proof.
  unfold clean_text, Spec.clean_amended, remove_artifacts.
  destruct (collapse_ws_join s) as [pre [post [Hpre [Hpost Heq]]]].
  rewrite Heq.
  rewrite <- (filter_ext _ _ keeps_allowed).
  rewrite !filter_app, (filter_spaces pre Hpre), (filter_spaces post Hpost).
  unfold Spec.title_runs. rewrite <- title_from_runs. fold (title (pre ++ filter keeps (join (lit " ") (split s)) ++ post)).
  rewrite title_padded by assumption.
  now rewrite strip_padded.
Qed.

(** C5 (as stated) fails: the source's title case restarts after a
    hyphen, and the source keeps the underscore. *)
Lemma clean_text_differs_from_spec :
  clean_text (lit "DUNGEON-ROOM") = lit "Dungeon-Room"
  /\ Spec.clean (lit "DUNGEON-ROOM") = lit "Dungeon-room"
  /\ clean_text (lit "DUNGEON-ROOM") <> Spec.clean (lit "DUNGEON-ROOM")
  /\ clean_text (lit "a_b") = lit "A_B"
  /\ Spec.clean (lit "a_b") = lit "Ab"
  /\ clean_text (lit "a_b") <> Spec.clean (lit "a_b").
Proof.
  repeat split; try reflexivity; vm_compute; discriminate.
Qed.

(** C2: cleaning is not idempotent.  Removing a token made of stripped
    characters leaves the two spaces around it, and a second cleaning
    collapses them. *)
Theorem clean_text_not_idempotent :
  clean_text (lit "Skill Point : 2") = lit "Skill Point  2"
  /\ clean_text (clean_text (lit "Skill Point : 2")) = lit "Skill Point 2"
  /\ clean_text (clean_text (lit "Skill Point : 2"))
     <> clean_text (lit "Skill Point : 2").
Proof.
  repeat split; try reflexivity. vm_compute. discriminate.
Qed.

(* ================================================================= *)
(** ** The card-name heuristic *)

Lemma ratio_table_30 : ratio_table 30 = true.
Proof. vm_compute. reflexivity. Qed.

Lemma ratio_test_exact (len k : nat) :
  len <= 30 -> k <= len -> ratio_test len k = (70 * len <=? 100 * k).
Proof.
  intros Hlen Hk.
  pose proof ratio_table_30 as T. unfold ratio_table in T.
  rewrite forallb_forall in T.
  specialize (T len). rewrite forallb_forall in T.
  apply Bool.eqb_prop, T; apply in_seq; lia.
Qed.

Lemma letter_count_le (text : str) : letter_count text <= length text.
Proof. apply filter_length_le. Qed.

Lemma is_likely_card_name_exact (text : str) :
  is_likely_card_name text = Spec.likely text.
Proof.
  unfold Spec.likely.
  destruct text as [| c text]; [reflexivity |].
  unfold is_likely_card_name.
  destruct (length (c :: text) <? 3); [reflexivity |].
  destruct (existsb _ card_keywords); [reflexivity |].
  destruct (3 <=? length (c :: text)) eqn:H3; cbn [andb]; [| reflexivity].
  destruct (length (c :: text) <=? 30) eqn:H30; cbn [andb]; [| reflexivity].
  apply Nat.leb_le in H30.
  apply (ratio_test_exact _ _ H30 (letter_count_le (c :: text))).
Qed.

(** The letters, the lower-casing, the substring test and the keyword
    list of the source are those of the specification. *)
Lemma isalpha_is_letter (c : ascii) : isalpha c = Spec.is_letter c.
Proof. by_table c. Qed.

Lemma tolower_translate (c : ascii) :
  tolower c = Spec.translate Spec.upper_row Spec.lower_row c.
Proof. by_table c. Qed.

Lemma lower_lower_cased (text : str) : lower text = Spec.lower_cased text.
Proof.
  unfold lower, Spec.lower_cased. apply map_ext, tolower_translate.
Qed.

Lemma letter_count_letters (text : str) :
  letter_count text = Spec.letters text.
Proof.
  unfold letter_count.
  induction text as [| c text IH]; [reflexivity |].
  cbn [filter Spec.letters]. rewrite <- isalpha_is_letter, <- IH.
  now destruct (isalpha c).
Qed.

Lemma startswith_firstn (p s : str) :
  startswith p s
  = if list_eq_dec ascii_dec (firstn (length p) s) p then true else false.
Proof.
  revert s. induction p as [| a p IH]; intros s; [reflexivity |].
  destruct s as [| b s]; [reflexivity |].
  cbn [startswith length firstn]. rewrite IH.
  destruct (Ascii.eqb a b) eqn:E.
  - apply Ascii.eqb_eq in E. subst b.
    destruct (list_eq_dec ascii_dec (firstn (length p) s) p) as [-> | N];
      destruct (list_eq_dec ascii_dec (a :: _) (a :: p)) as [E' | N'];
      try reflexivity.
    + now contradiction N'.
    + injection E' as E'. contradiction.
  - apply Ascii.eqb_neq in E. cbn [andb].
    destruct (list_eq_dec ascii_dec (b :: _) (a :: p)) as [E' | N'];
      [| reflexivity].
    injection E' as -> _. now contradiction E.
Qed.

Lemma existsb_ext {A : Type} (f g : A -> bool) (l : list A) :
  (forall x, f x = g x) -> existsb f l = existsb g l.
Proof.
  intros H. induction l as [| x l IH]; [reflexivity |].
  simpl. now rewrite H, IH.
Qed.

Lemma existsb_map {A B : Type} (f : A -> B) (p : B -> bool) (l : list A) :
  existsb p (map f l) = existsb (fun x => p (f x)) l.
Proof.
  induction l as [| x l IH]; [reflexivity |]. simpl. now rewrite IH.
Qed.

Lemma contains_occurs (needle hay : str) :
  contains needle hay = Spec.occurs needle hay.
Proof.
  unfold Spec.occurs.
  induction hay as [| c hay IH].
  - cbn [contains length seq existsb skipn]. now rewrite startswith_firstn.
  - cbn [contains]. rewrite IH.
    change (seq 0 (S (length (c :: hay))))
      with (0 :: seq 1 (S (length hay))).
    rewrite <- seq_shift. cbn [existsb]. rewrite existsb_map.
    cbn [skipn]. now rewrite startswith_firstn.
Qed.

Lemma card_keywords_spec : card_keywords = Spec.keywords.
Proof. reflexivity. Qed.

Lemma likely_likely_card_name (text : str) :
  Spec.likely text = Spec.likely_card_name text.
Proof.
  unfold Spec.likely, Spec.likely_card_name.
  rewrite lower_lower_cased, letter_count_letters, card_keywords_spec.
  rewrite (existsb_ext _ (fun keyword =>
                            Spec.occurs keyword (Spec.lower_cased text)));
    [reflexivity |].
  intros keyword. apply contains_occurs.
Qed.

(** C4: the heuristic is the specification's three-stage test (the
    length gate, a keyword occurring in the lower-cased text, else the
    length window with at least 70 letters in every 100 characters),
    where the letters, the lower-casing, the occurrence of a keyword and
    the keyword list are the specification's own.  It takes the five
    stated values.  Without a keyword, a text of ten characters is
    accepted with seven letters and rejected with six; one of three
    characters is accepted with three letters and rejected with two; a
    text of letters is accepted at thirty characters and rejected at
    thirty-one; digits around a keyword are accepted whatever the share
    of letters. *)
Theorem is_likely_card_name_spec :
  (forall text : str, is_likely_card_name text = Spec.likely_card_name text)
  /\ is_likely_card_name (lit "") = false
  /\ is_likely_card_name (lit "x") = false
  /\ is_likely_card_name (lit "12345") = false
  /\ is_likely_card_name (lit "Skill Point") = true
  /\ is_likely_card_name (repeat "a"%char 50) = false
  /\ is_likely_card_name (lit "abcdefg123") = true
  /\ is_likely_card_name (lit "abcdef1234") = false
  /\ is_likely_card_name (lit "Zap") = true
  /\ is_likely_card_name (lit "Z4p") = false
  /\ is_likely_card_name (repeat "b"%char 30) = true
  /\ is_likely_card_name (repeat "b"%char 31) = false
  /\ is_likely_card_name (lit "1234 GOLD 5678 9012") = true
  /\ is_likely_card_name (lit "1234 G0LD 5678 9012") = false.
Proof.
  split; [| repeat split; vm_compute; reflexivity].
  intros text.
  rewrite is_likely_card_name_exact. apply likely_likely_card_name.
Qed.

(* ================================================================= *)
(** ** Keeping first occurrences *)

Lemma filter_comm {A : Type} (p q : A -> bool) (l : list A) :
  filter p (filter q l) = filter q (filter p l).
Proof.
  induction l as [| x l IH]; simpl; [reflexivity |].
  destruct (p x) eqn:Hp, (q x) eqn:Hq; simpl;
    rewrite ?Hp, ?Hq, IH; reflexivity.
Qed.

Lemma filter_drop_rejected (p : str -> bool) (x : str) (l : list str) :
  p x = false ->
  filter p (filter (fun y => negb (str_eqb y x)) l) = filter p l.
Proof.
  intros Hx. induction l as [| y l IH]; simpl; [reflexivity |].
  destruct (str_eqb y x) eqn:E; simpl.
  - apply str_eqb_eq in E. subst y. now rewrite Hx.
  - now rewrite IH.
Qed.

Lemma dedup_first_filter (p : str -> bool) (l : list str) :
  Spec.dedup_first (filter p l) = filter p (Spec.dedup_first l).
Proof.
  induction l as [| x l IH]; simpl; [reflexivity |].
  destruct (p x) eqn:Hp; simpl.
  - now rewrite IH, filter_comm.
  - now rewrite IH, filter_drop_rejected.
Qed.

Lemma dedup_first_In (x : str) (l : list str) :
  In x (Spec.dedup_first l) <-> In x l.
Proof.
  induction l as [| y l IH]; simpl; [tauto |].
  rewrite filter_In, IH, negb_true_iff.
  destruct (list_eq_dec ascii_dec y x) as [-> | Hne].
  - tauto.
  - assert (str_eqb x y = false).
    { destruct (str_eqb x y) eqn:E; [| reflexivity].
      apply str_eqb_eq in E. congruence. }
    tauto.
Qed.

Lemma dedup_first_NoDup (l : list str) : NoDup (Spec.dedup_first l).
Proof.
  induction l as [| x l IH]; simpl; constructor.
  - rewrite filter_In, str_eqb_refl. simpl. intros [_ H]. discriminate.
  - now apply NoDup_filter.
Qed.

Lemma dedup_first_fixed (l : list str) : NoDup l -> Spec.dedup_first l = l.
Proof.
  induction 1 as [| x l Hx Hnd IH]; simpl; [reflexivity |].
  rewrite IH. f_equal.
  apply forallb_filter_id, forallb_forall.
  intros y Hy. apply negb_true_iff.
  destruct (str_eqb y x) eqn:E; [| reflexivity].
  apply str_eqb_eq in E. congruence.
Qed.

Lemma filter_not_mem_snoc (acc : list str) (x : str) (l : list str) :
  filter (fun y => negb (mem y (acc ++ [x]))) l
  = filter (fun y => negb (str_eqb y x))
           (filter (fun y => negb (mem y acc)) l).
Proof.
  induction l as [| y l IH]; simpl; [reflexivity |].
  unfold mem at 1. rewrite existsb_app. fold (mem y acc). simpl.
  rewrite orb_false_r.
  destruct (mem y acc); simpl; [exact IH |].
  destruct (str_eqb y x); simpl; now rewrite IH.
Qed.

Lemma filter_not_mem_nil (l : list str) :
  filter (fun y => negb (mem y [])) l = l.
Proof.
  apply forallb_filter_id, forallb_forall. intros y _. reflexivity.
Qed.

(** The duplicate-removing loop, from any list of names already kept. *)
Lemma fold_add_unique (l acc : list str) :
  fold_left add_unique l acc
  = acc ++ Spec.dedup_first (filter (fun y => negb (mem y acc)) l).
Proof.
  revert acc. induction l as [| x l IH]; intros acc; simpl.
  - now rewrite app_nil_r.
  - unfold add_unique at 2.
    destruct (mem x acc) eqn:E; simpl.
    + apply IH.
    + rewrite IH, <- app_assoc. simpl. do 2 f_equal.
      now rewrite filter_not_mem_snoc, dedup_first_filter.
Qed.

Lemma fold_add_line (lines acc : list str) :
  fold_left add_line lines acc = acc ++ Spec.surviving lines.
Proof.
  revert acc. unfold Spec.surviving.
  induction lines as [| line lines IH]; intros acc; simpl.
  - now rewrite app_nil_r.
  - rewrite IH. unfold add_line.
    destruct (is_likely_card_name (clean_text line)); simpl.
    + now rewrite <- app_assoc.
    + reflexivity.
Qed.

Lemma fold_add_region (regions : list (str * float)) (acc : list str) :
  fold_left add_region regions acc
  = acc ++ Spec.surviving (map fst (filter Spec.confident regions)).
Proof.
  revert acc. unfold Spec.surviving.
  induction regions as [| [text confidence] regions IH]; intros acc; simpl.
  - now rewrite app_nil_r.
  - rewrite IH. unfold Spec.confident at 2. simpl.
    destruct (PrimFloat.ltb 0.7 confidence); simpl; [| reflexivity].
    destruct (is_likely_card_name (clean_text text)); simpl.
    + now rewrite <- app_assoc.
    + reflexivity.
Qed.

Lemma surviving_Forall (texts : list str) :
  Forall (fun n => is_likely_card_name n = true
                   /\ exists raw, n = clean_text raw)
         (Spec.surviving texts).
Proof.
  apply Forall_forall. intros n Hn.
  apply filter_In in Hn. destruct Hn as [Hin Hok].
  apply in_map_iff in Hin. destruct Hin as [raw [<- _]].
  split; [assumption | now exists raw].
Qed.

Lemma collect_extracted (tesseract_text : str)
      (easyocr_results : list (str * float)) :
  collect tesseract_text easyocr_results
  = Spec.extracted tesseract_text easyocr_results.
Proof.
  unfold collect, Spec.extracted. cbv zeta.
  rewrite fold_add_unique, filter_not_mem_nil. simpl. f_equal.
  rewrite fold_add_region. f_equal.
  destruct tesseract_text as [| c text]; [reflexivity |].
  now rewrite fold_add_line.
Qed.

(* ================================================================= *)
(** ** The extraction pipeline *)

Section Extraction.

Variables image bbox : Type.
Variable image_to_string : image -> option str.
Variable readtext : image -> option (list (bbox * str * float)).

Let names (img : image) : list str :=
  fst (extract_card_names image_to_string readtext img).
Let text (img : image) : str :=
  fst (extract_text_pytesseract image_to_string img).
Let regions (img : image) : list (str * float) :=
  fst (extract_text_easyocr readtext img).

(** C3: the extracted names are Tesseract's surviving cleaned lines, then
    EasyOCR's surviving cleaned regions of confidence above 0.7, each in
    its order, with later duplicates dropped; no name occurs twice, and
    every name is a cleaned text that passes the heuristic. *)
Theorem extract_card_names_spec (img : image) :
  names img
  = Spec.dedup_first
      (Spec.surviving (split_sep "010" (text img))
       ++ Spec.surviving
            (map fst (filter (fun r => PrimFloat.ltb 0.7 (snd r))
                             (regions img))))
  /\ NoDup (names img)
  /\ Forall (fun n => is_likely_card_name n = true
                      /\ exists raw, n = clean_text raw)
            (names img).
Proof.
  assert (E : names img = Spec.extracted (text img) (regions img)).
  { unfold names, extract_card_names, bind, ret. simpl.
    apply collect_extracted. }
  rewrite E. unfold Spec.extracted. split; [reflexivity |].
  split; [apply dedup_first_NoDup |].
  apply Forall_forall. intros n Hn.
  apply (proj1 (dedup_first_In _ _)) in Hn.
  apply in_app_or in Hn.
  destruct Hn as [Hn | Hn]; revert n Hn; apply Forall_forall;
    apply surviving_Forall.
Qed.

End Extraction.

(* ================================================================= *)
(** ** Extraction and preprocessing *)

Section Preprocessing.

Variable bbox : Type.
Variable bgr2gray : Z * Z * Z -> Z.
Variable otsu : list (list Z) -> Z.
Variable image_to_string : ScreenCapture.Image -> option str.
Variable readtext :
  ScreenCapture.Image -> option (list (bbox * str * float)).

(** C6 (as amended): [extract_card_names] does no preprocessing of its
    own.  It calls Tesseract and then EasyOCR, both on the image it was
    given, and on no other image; in particular neither engine is called
    on the result of [preprocess_for_ocr]. *)
Theorem extract_card_names_calls (img : ScreenCapture.Image) :
  snd (extract_card_names image_to_string readtext img)
  = [Tesseract img; EasyOCR img]
  /\ forall pre : ScreenCapture.Image,
       ScreenCapture.preprocess_for_ocr bgr2gray otsu img = Some pre ->
       ~ In (Tesseract pre)
            (snd (extract_card_names image_to_string readtext img))
       /\ ~ In (EasyOCR pre)
              (snd (extract_card_names image_to_string readtext img)).
Proof.
  split; [reflexivity |].
  intros pre Hpre. simpl.
  destruct img as [pixels | pixels]; simpl in Hpre; [| discriminate].
  injection Hpre as <-.
  split; intros [H | [H | []]]; discriminate.
Qed.

End Preprocessing.

Lemma extract_card_names_calls_witness :
  ScreenCapture.preprocess_for_ocr Examples.luma Examples.mid_threshold
    Examples.black_pixel = Some (ScreenCapture.L [[0%Z]])
  /\ ~ In (Tesseract (ScreenCapture.L [[0%Z]]))
          (snd (extract_card_names Examples.reads_colour
                  Examples.finds_nothing Examples.black_pixel)).
Proof.
  split; [reflexivity |].
  apply (extract_card_names_calls unit Examples.luma Examples.mid_threshold
           Examples.reads_colour Examples.finds_nothing Examples.black_pixel).
  reflexivity.
Defined.

(** C6 (as stated) fails: on a one-pixel colour image the engines are
    called on that image, not on its binarised form, and with engines
    that tell the two apart the extracted names differ. *)
Lemma extract_card_names_skips_preprocessing :
  ~ (exists pre : ScreenCapture.Image,
       ScreenCapture.preprocess_for_ocr Examples.luma Examples.mid_threshold
         Examples.black_pixel = Some pre
       /\ snd (extract_card_names Examples.reads_colour
                 Examples.finds_nothing Examples.black_pixel)
          = [Tesseract pre; EasyOCR pre])
  /\ fst (extract_card_names Examples.reads_colour Examples.finds_nothing
            Examples.black_pixel) = [lit "Dungeon Room"]
  /\ fst (extract_card_names Examples.reads_colour Examples.finds_nothing
            (ScreenCapture.L [[0%Z]])) = [].
Proof.
  split; [| split; reflexivity].
  intros [pre [Hpre Hcalls]].
  injection Hpre as <-. discriminate Hcalls.
Qed.

(* ================================================================= *)
(** ** Ingesting card names *)

Lemma set_session_same {S : Type} (t : state S) :
  set_session t (current_session t) = t.
Proof. now destruct t. Qed.

Lemma detect_seen (ts : datetime) (p : option str) (s : Session) (n : str) :
  mem n (map card_name (cards_seen s)) = true -> detect ts p s n = s.
Proof. intros H. unfold detect. now rewrite H. Qed.

Lemma fold_detect_seen (ts : datetime) (p : option str) (names : list str)
      (s : Session) :
  (forall n, In n names -> In n (map card_name (cards_seen s))) ->
  fold_left (detect ts p) names s = s.
Proof.
  induction names as [| n names IH]; intros H; simpl; [reflexivity |].
  rewrite detect_seen.
  - apply IH. intros m Hm. apply H. now right.
  - apply mem_In, H. now left.
Qed.

(** The loop of [track_card_detection] appends, for the names not yet
    seen and once each, the event built from the call's arguments. *)
Lemma fold_detect_cards (ts : datetime) (p : option str) (names : list str)
      (s : Session) :
  cards_seen (fold_left (detect ts p) names s)
  = cards_seen s
    ++ map (detected ts p)
           (Spec.dedup_first
              (filter (fun n => negb (mem n (map card_name (cards_seen s))))
                      names)).
Proof.
  revert s. induction names as [| x names IH]; intros s; simpl.
  - now rewrite app_nil_r.
  - unfold detect at 2.
    destruct (mem x (map card_name (cards_seen s))) eqn:E; simpl.
    + apply IH.
    + rewrite IH. simpl. rewrite <- app_assoc. simpl. do 3 f_equal.
      rewrite map_app. simpl.
      now rewrite filter_not_mem_snoc, dedup_first_filter.
Qed.

Lemma map_card_name_detected (ts : datetime) (p : option str)
      (names : list str) :
  map card_name (map (detected ts p) names) = names.
Proof.
  rewrite map_map. simpl. apply map_id.
Qed.

Lemma seen_track (now : datetime) (t : state Session) (names : list str)
      (p : option str) :
  seen (track_card_detection now t names p)
  = fold_left add_unique names (seen t).
Proof.
  unfold seen, track_card_detection. simpl.
  rewrite fold_detect_cards, map_app, map_card_name_detected.
  now rewrite fold_add_unique.
Qed.

Lemma seen_ingest_all (calls : list (list str * option str * datetime))
      (t : state Session) :
  seen (ingest_all t calls) = fold_left add_unique (names_of calls) (seen t).
Proof.
  unfold ingest_all, names_of. revert t.
  induction calls as [| [[names p] now] calls IH]; intros t; simpl.
  - reflexivity.
  - now rewrite IH, fold_left_app, seen_track.
Qed.

Lemma ingest_all_prefix (more : list (list str * option str * datetime))
      (t : state Session) :
  exists added,
    cards_seen (current_session (ingest_all t more))
    = cards_seen (current_session t) ++ added.
Proof.
  unfold ingest_all. revert t.
  induction more as [| [[names p] now] more IH]; intros t; simpl.
  - exists []. now rewrite app_nil_r.
  - destruct (IH (track_card_detection now t names p)) as [added Heq].
    rewrite Heq. unfold track_card_detection. simpl.
    rewrite fold_detect_cards, <- app_assoc. eauto.
Qed.

(** C1: along any sequence of [track_card_detection] calls on a fresh
    tracker, [cards_seen] holds at most one event per name; its names are
    the first occurrences of the ingested names in arrival order; every
    further call or sequence of calls only appends, each new event
    carrying the arguments of the call that first brought its name; a
    call with names already seen, and a call with no names, leave the
    tracker as it was. *)
Theorem track_card_detection_unique
        (strftime : datetime -> str) (dir : str) (now_id now_start : datetime)
        (calls : list (list str * option str * datetime)) :
  let t := ingest_all (init strftime dir now_id now_start) calls in
  NoDup (seen t)
  /\ seen t = Spec.dedup_first (names_of calls)
  /\ (forall names p now,
        exists fresh_names,
          cards_seen (current_session (track_card_detection now t names p))
          = cards_seen (current_session t)
            ++ map (detected now p) fresh_names
          /\ NoDup fresh_names
          /\ forall n, In n fresh_names <-> In n names /\ ~ In n (seen t))
  /\ (forall more, exists added,
        cards_seen (current_session (ingest_all t more))
        = cards_seen (current_session t) ++ added)
  /\ (forall names p now,
        (forall n, In n names -> In n (seen t)) ->
        track_card_detection now t names p = t)
  /\ (forall p now, track_card_detection now t [] p = t).
Proof.
  intros t.
  assert (Hseen : seen t = Spec.dedup_first (names_of calls)).
  { unfold t. rewrite seen_ingest_all, fold_add_unique. simpl.
    now rewrite filter_not_mem_nil. }
  split; [rewrite Hseen; apply dedup_first_NoDup |].
  split; [exact Hseen |].
  split.
  { intros names p now.
    exists (Spec.dedup_first
              (filter (fun n => negb (mem n (seen t))) names)).
    split; [apply fold_detect_cards |].
    split; [apply dedup_first_NoDup |].
    intros n. rewrite dedup_first_In, filter_In, negb_true_iff, mem_false.
    reflexivity. }
  split; [intros more; apply ingest_all_prefix |].
  split.
  - intros names p now H. unfold track_card_detection.
    rewrite fold_detect_seen by exact H. apply set_session_same.
  - intros p now. apply set_session_same.
Qed.

Lemma track_card_detection_unique_witness :
  let t := ingest_all (init Examples.no_format (lit "docs") 0%Z 0%Z)
                      Examples.two_calls in
  (forall n, In n [lit "New Card"; lit "Adventure Card"] -> In n (seen t))
  /\ track_card_detection 30%Z t [lit "New Card"; lit "Adventure Card"] None
     = t.
Proof.
  assert (H : forall n, In n [lit "New Card"; lit "Adventure Card"] ->
                        In n (seen (ingest_all
                                      (init Examples.no_format (lit "docs")
                                            0%Z 0%Z)
                                      Examples.two_calls))).
  { intros n [<- | [<- | []]]; vm_compute; auto. }
  split; [exact H |].
  apply (track_card_detection_unique Examples.no_format (lit "docs") 0%Z 0%Z
           Examples.two_calls).
  exact H.
Defined.

(** The specification's example: three names with a repeat, then the
    repeat again; two events, both stamped by the first call; and names
    that differ in case are distinct. *)
Example ingest_example :
  let t := ingest_all Examples.fresh Examples.two_calls in
  seen t = [lit "Adventure Card"; lit "New Card"]
  /\ map card_timestamp (cards_seen (current_session t)) = [10%Z; 10%Z]
  /\ seen (track_card_detection 30%Z t [lit "adventure card"] None)
     = [lit "Adventure Card"; lit "New Card"; lit "adventure card"].
Proof. repeat split. Qed.

(* ================================================================= *)
(** ** Scenario classification *)

Lemma existsb_Permutation {A : Type} (f : A -> bool) (l l' : list A) :
  Permutation l l' -> existsb f l = existsb f l'.
Proof.
  induction 1 as [| x l l' _ IH | x y l | l l' l'' _ IH1 _ IH2]; simpl.
  - reflexivity.
  - now rewrite IH.
  - destruct (f x), (f y); reflexivity.
  - congruence.
Qed.

(** C8: [identify_scenario] is the first-match classification over the
    rules dungeon, market, artifact, in that order, on the lower-cased
    names; its result does not depend on the order of the names; and the
    two-name example yields "Dungeon Exploration" in either order. *)
Theorem identify_scenario_priority :
  (forall names : list str,
     identify_scenario names = Spec.classify_scenario names)
  /\ (forall names : list str,
        identify_scenario names =
        if existsb (fun n => contains (lit "dungeon") (lower n)) names
        then lit "Dungeon Exploration"
        else if existsb (fun n => contains (lit "market") (lower n)) names
        then lit "Market Phase"
        else if existsb (fun n => contains (lit "artifact") (lower n)) names
        then lit "Artifact Acquisition"
        else lit "Unknown Scenario")
  /\ (forall names names' : list str,
        Permutation names names' ->
        identify_scenario names = identify_scenario names')
  /\ identify_scenario [lit "Dungeon Room"; lit "Market Stall"]
     = lit "Dungeon Exploration"
  /\ identify_scenario [lit "Market Stall"; lit "Dungeon Room"]
     = lit "Dungeon Exploration".
Proof.
  split; [| split; [| split; [| split; reflexivity]]].
  - intros names.
    unfold identify_scenario, Spec.classify_scenario, Spec.rules, mentions.
    cbn [find]. unfold Spec.rule_fires. cbn [fst snd].
    destruct (existsb (fun name => contains (lit "dungeon") (lower name)) names);
      [reflexivity |].
    destruct (existsb (fun name => contains (lit "market") (lower name)) names);
      [reflexivity |].
    destruct (existsb (fun name => contains (lit "artifact") (lower name)) names);
      reflexivity.
  - intros names. reflexivity.
  - intros names names' H. unfold identify_scenario, mentions.
    now rewrite !(existsb_Permutation _ names names' H).
Qed.

Lemma identify_scenario_priority_witness :
  Permutation [lit "Market Stall"; lit "Dungeon Room"]
              [lit "Dungeon Room"; lit "Market Stall"]
  /\ identify_scenario [lit "Market Stall"; lit "Dungeon Room"]
     = identify_scenario [lit "Dungeon Room"; lit "Market Stall"].
Proof.
  split; [apply perm_swap |].
  exact (proj1 (proj2 (proj2 identify_scenario_priority)) _ _
               (perm_swap _ _ _)).
Defined.

(* ================================================================= *)
(** ** The session report *)

Lemma fold_left_append {A : Type} (f : A -> str) (l : list A) (r : str) :
  fold_left (fun report x => report ++ f x) l r = r ++ concat (map f l).
Proof.
  revert r. induction l as [| x l IH]; intros r; simpl.
  - now rewrite app_nil_r.
  - now rewrite IH, <- app_assoc.
Qed.

Lemma slice_from_last {A : Type} (xs : list A) :
  slice_from (-5) xs = Spec.last_n 5 xs.
Proof.
  unfold slice_from, Spec.last_n. f_equal.
  change (-5 <? 0)%Z with true. cbv iota. lia.
Qed.

Lemma last_n_split {A : Type} (n : nat) (xs : list A) :
  xs = firstn (length xs - n) xs ++ Spec.last_n n xs
  /\ length (Spec.last_n n xs) = Nat.min (length xs) n.
Proof.
  unfold Spec.last_n. split.
  - symmetry. apply firstn_skipn.
  - rewrite length_skipn. lia.
Qed.

Section Report.

Variable isoformat : datetime -> str.

(** C9: the report is the header (identifier, duration, the three
    counts), then one line per card of [cards_seen], every card, with
    its name and its timestamp, then the events heading, then one line
    with the type and the description of each event of the tail of
    [game_events] of length min(n, 5), in order.  With the seven recorded
    events 1..7 the event lines are those of 3..7.  The report of a
    session with two cards and these seven events is the printed text
    [Examples.busy_report]: the lines of the events 3..7 occur in it and
    those of the events 1 and 2 do not. *)
Theorem report_last_five (now : datetime) (t : state Session) :
  (exists older recent : list GameEvent,
     game_events (current_session t) = older ++ recent
     /\ length recent = Nat.min (length (game_events (current_session t))) 5
     /\ generate_session_report isoformat now t
        = Spec.header (session_id (current_session t))
                      (_calculate_session_duration now (current_session t))
                      (length (cards_seen (current_session t)))
                      (length (game_events (current_session t)))
                      (length (screenshots (current_session t)))
          ++ concat (map (fun card =>
                            Spec.card_entry (card_name card)
                                            (isoformat (card_timestamp card)))
                         (cards_seen (current_session t)))
          ++ Spec.events_heading
          ++ concat (map (fun event =>
                            Spec.event_entry (event_type event)
                                             (description event))
                         recent))
  /\ game_events (current_session Examples.seven_events)
     = map Examples.event [1; 2; 3; 4; 5; 6; 7]
  /\ generate_session_report isoformat now Examples.seven_events
     = Spec.header (lit "clank_session_")
                   (_calculate_session_duration
                      now (current_session Examples.seven_events)) 0 7 0
       ++ Spec.events_heading
       ++ concat (map (fun n =>
                         Spec.event_entry
                           (lit "event_" ++ str_of_nat n)
                           (lit "Event number " ++ str_of_nat n))
                      [3; 4; 5; 6; 7])
  /\ map card_name (cards_seen (current_session Examples.busy))
     = [lit "Dungeon Room"; lit "Gold Coin"]
  /\ game_events (current_session Examples.busy)
     = map Examples.event [1; 2; 3; 4; 5; 6; 7]
  /\ generate_session_report Examples.stamp Examples.later Examples.busy
     = Examples.busy_report
  /\ forallb (fun n =>
                Spec.occurs
                  (Spec.event_entry (event_type (Examples.event n))
                                    (description (Examples.event n)))
                  Examples.busy_report)
             [3; 4; 5; 6; 7] = true
  /\ existsb (fun n =>
                Spec.occurs
                  (Spec.event_entry (event_type (Examples.event n))
                                    (description (Examples.event n)))
                  Examples.busy_report)
             [1; 2] = false
  /\ forallb (fun name =>
                Spec.occurs (Spec.card_entry name (Examples.stamp 5%Z))
                            Examples.busy_report)
             [lit "Dungeon Room"; lit "Gold Coin"] = true.
Proof.
  assert (G : forall u : state Session,
            generate_session_report isoformat now u
            = Spec.header (session_id (current_session u))
                          (_calculate_session_duration now (current_session u))
                          (length (cards_seen (current_session u)))
                          (length (game_events (current_session u)))
                          (length (screenshots (current_session u)))
              ++ concat (map (fun card =>
                                Spec.card_entry
                                  (card_name card)
                                  (isoformat (card_timestamp card)))
                             (cards_seen (current_session u)))
              ++ Spec.events_heading
              ++ concat (map (fun event =>
                                Spec.event_entry (event_type event)
                                                 (description event))
                             (Spec.last_n 5
                                (game_events (current_session u))))).
  { intros u. unfold generate_session_report. cbv zeta.
    rewrite !fold_left_append, slice_from_last.
    rewrite <- !app_assoc. reflexivity. }
  split; [| split; [reflexivity |]; split;
            [| repeat split; vm_compute; reflexivity]].
  - destruct (last_n_split 5 (game_events (current_session t))) as [Hs Hl].
    exists (firstn (length (game_events (current_session t)) - 5)
                   (game_events (current_session t))),
           (Spec.last_n 5 (game_events (current_session t))).
    split; [exact Hs |]. split; [exact Hl |]. apply G.
  - rewrite G. reflexivity.
Qed.

End Report.

(* ================================================================= *)
(** ** The scenarios of a session *)

Lemma detect_scenarios (ts : datetime) (p : option str) (s : Session)
      (n : str) :
  scenarios (detect ts p s n) = scenarios s.
Proof.
  unfold detect.
  now destruct (negb (mem n (map card_name (cards_seen s)))).
Qed.

Lemma fold_detect_scenarios (ts : datetime) (p : option str)
      (names : list str) (s : Session) :
  scenarios (fold_left (detect ts p) names s) = scenarios s.
Proof.
  revert s. induction names as [| n names IH]; intros s; simpl.
  - reflexivity.
  - now rewrite IH, detect_scenarios.
Qed.

Section Scenarios.

Variable isoformat : datetime -> str.
Variable strftime : datetime -> str.
Variable json_dumps : json -> str.
Variable path_join : str -> str -> str.

Lemma step_scenarios (w : state Session * list (str * str))
      (c : op * datetime) :
  scenarios (current_session (fst (step isoformat json_dumps path_join w c)))
  = scenarios (current_session (fst w)).
Proof.
  destruct w as [t fs], c as [o now].
  destruct o; simpl; try reflexivity.
  apply fold_detect_scenarios.
Qed.

Lemma run_scenarios (cs : list (op * datetime))
      (w : state Session * list (str * str)) :
  scenarios (current_session (fst (run isoformat json_dumps path_join w cs)))
  = scenarios (current_session (fst w)).
Proof.
  unfold run. revert w.
  induction cs as [| c cs IH]; intros w; simpl.
  - reflexivity.
  - now rewrite IH, step_scenarios.
Qed.

(** C10: no call changes [scenarios]; after any sequence of calls on a
    fresh tracker it is empty, and the statistics count no scenario. *)
Theorem scenarios_stay_empty
        (dir : str) (now_id now_start now : datetime)
        (fs : list (str * str)) (cs : list (op * datetime)) :
  (forall (w : state Session * list (str * str)) (c : op * datetime),
     scenarios (current_session (fst (step isoformat json_dumps path_join w c)))
     = scenarios (current_session (fst w)))
  /\ scenarios
       (current_session
          (fst (run isoformat json_dumps path_join
                    (init strftime dir now_id now_start, fs) cs))) = []
  /\ scenarios_identified
       (get_session_stats now
          (fst (run isoformat json_dumps path_join
                    (init strftime dir now_id now_start, fs) cs))) = 0.
Proof.
  split; [exact step_scenarios |].
  assert (E : scenarios
                (current_session
                   (fst (run isoformat json_dumps path_join
                             (init strftime dir now_id now_start, fs) cs)))
              = []).
  { now rewrite run_scenarios. }
  split; [exact E |].
  unfold get_session_stats. cbn [scenarios_identified]. now rewrite E.
Qed.

End Scenarios.

(* ================================================================= *)
(** ** Loading a session *)

Section Loading.

Variable json_loads : str -> option json.

(** C7: when the file holds a document that [json.loads] accepts, the
    tracker's session becomes that document and nothing of the old
    session remains; when [json.loads] rejects the text, the call raises
    and the tracker is the one it was. *)
Theorem load_session_atomic {S : Type} (fs : list (str * str))
        (t : state S) (session_file text : str) :
  read fs session_file = Some text ->
  (forall v : json,
     json_loads text = Some v ->
     load_session json_loads fs t session_file
     = inr {| save_directory := save_directory t; current_session := v |})
  /\ (json_loads text = None ->
      load_session json_loads fs t session_file = inl (JSONDecodeError, t)).
Proof.
  intros Hread. unfold load_session. rewrite Hread.
  split.
  - intros v Hv. now rewrite Hv.
  - intros Hv. now rewrite Hv.
Qed.

End Loading.

Lemma load_session_atomic_witness :
  read Examples.corrupted_files (lit "corrupted.json")
  = Some (lit "{ invalid json content")
  /\ Examples.loads_empty (lit "{ invalid json content") = None
  /\ load_session Examples.loads_empty Examples.corrupted_files
       Examples.seven_events (lit "corrupted.json")
     = inl (JSONDecodeError, Examples.seven_events)
  /\ load_session Examples.loads_empty Examples.corrupted_files
       Examples.seven_events (lit "empty.json")
     = inr {| save_directory := lit "docs"; current_session := JDict [] |}.
Proof.
  split; [reflexivity |]. split; [reflexivity |]. split.
  - apply (load_session_atomic Examples.loads_empty Examples.corrupted_files
             Examples.seven_events (lit "corrupted.json")
             (lit "{ invalid json content")); reflexivity.
  - apply (load_session_atomic Examples.loads_empty Examples.corrupted_files
             Examples.seven_events (lit "empty.json") (lit "{}"));
      reflexivity.
Defined.

(* ================================================================= *)
(** ** Stripping *)

Lemma lstrip_decompose (x : str) :
  exists pre, spaces pre /\ x = pre ++ lstrip x.
Proof.
  induction x as [| c x [pre [Hp Heq]]]; simpl.
  - exists []. auto.
  - destruct (isspace c) eqn:Hc.
    + exists (c :: pre). split; [now constructor | simpl; congruence].
    + exists []. auto.
Qed.

Lemma lstrip_head (x r : str) (c : ascii) :
  lstrip x = c :: r -> isspace c = false.
Proof.
  induction x as [| d x IH]; simpl; [discriminate |].
  destruct (isspace d) eqn:Hd; [exact IH |].
  intros H. injection H as <- _. exact Hd.
Qed.

Lemma lstrip_fixed (c : ascii) (r : str) :
  isspace c = false -> lstrip (c :: r) = c :: r.
Proof. intros H. simpl. now rewrite H. Qed.

Lemma lstrip_idem (x : str) : lstrip (lstrip x) = lstrip x.
Proof.
  destruct (lstrip x) as [| c r] eqn:E; [reflexivity |].
  apply lstrip_fixed. now apply (lstrip_head x r).
Qed.

Lemma rstrip_decompose (x : str) :
  exists post, spaces post /\ x = rstrip x ++ post.
Proof.
  destruct (lstrip_decompose (rev x)) as [pre [Hp Heq]].
  exists (rev pre). split; [now apply Forall_rev |].
  unfold rstrip. rewrite <- rev_app_distr, <- Heq. now rewrite rev_involutive.
Qed.

Lemma rstrip_last (x r : str) (c : ascii) :
  rstrip x = r ++ [c] -> isspace c = false.
Proof.
  unfold rstrip. intros H.
  apply (f_equal (@rev ascii)) in H.
  rewrite rev_involutive, rev_app_distr in H. simpl in H.
  now apply (lstrip_head (rev x) (rev r)).
Qed.

Lemma rstrip_idem (x : str) : rstrip (rstrip x) = rstrip x.
Proof.
  unfold rstrip. now rewrite rev_involutive, lstrip_idem.
Qed.

Lemma strip_head (x r : str) (c : ascii) :
  strip x = c :: r -> isspace c = false.
Proof.
  unfold strip. intros H.
  destruct (rstrip_decompose (lstrip x)) as [post [_ Heq]].
  rewrite H in Heq. simpl in Heq.
  now apply (lstrip_head x (r ++ post)).
Qed.

Lemma strip_last (x r : str) (c : ascii) :
  strip x = r ++ [c] -> isspace c = false.
Proof. unfold strip. apply rstrip_last. Qed.

Lemma strip_lstrip (x : str) : lstrip (strip x) = strip x.
Proof.
  destruct (strip x) as [| c r] eqn:E; [reflexivity |].
  apply lstrip_fixed. now apply (strip_head x r).
Qed.

Lemma strip_rstrip (x : str) : rstrip (strip x) = strip x.
Proof. unfold strip. apply rstrip_idem. Qed.

Lemma strip_idem (x : str) : strip (strip x) = strip x.
Proof.
  unfold strip at 1. now rewrite strip_lstrip, strip_rstrip.
Qed.

Lemma strip_nil_spaces (x : str) : strip x = [] -> spaces x.
Proof.
  unfold strip. intros H.
  destruct (lstrip_decompose x) as [pre [Hpre Hx]].
  destruct (rstrip_decompose (lstrip x)) as [post [Hpost Hy]].
  rewrite H in Hy. simpl in Hy. rewrite Hx, Hy.
  now apply Forall_app.
Qed.

Lemma lstrip_Forall (P : ascii -> Prop) (x : str) :
  Forall P x -> Forall P (lstrip x).
Proof.
  intros H. destruct (lstrip_decompose x) as [pre [_ Heq]].
  rewrite Heq in H. now apply Forall_app in H.
Qed.

Lemma strip_Forall (P : ascii -> Prop) (x : str) :
  Forall P x -> Forall P (strip x).
Proof.
  intros H. unfold strip, rstrip.
  now apply Forall_rev, lstrip_Forall, Forall_rev, lstrip_Forall.
Qed.

Lemma lstrip_map (f : ascii -> ascii) (x : str) :
  (forall c, isspace (f c) = isspace c) ->
  lstrip (map f x) = map f (lstrip x).
Proof.
  intros Hf. induction x as [| c x IH]; simpl; [reflexivity |].
  rewrite Hf. destruct (isspace c); [exact IH | reflexivity].
Qed.

Lemma strip_map (f : ascii -> ascii) (x : str) :
  (forall c, isspace (f c) = isspace c) ->
  strip (map f x) = map f (strip x).
Proof.
  intros Hf. unfold strip, rstrip.
  now rewrite (lstrip_map f x Hf), <- map_rev, (lstrip_map f _ Hf), map_rev.
Qed.

Lemma isspace_tolower (c : ascii) : isspace (tolower c) = isspace c.
Proof. by_table c. Qed.

Lemma tolower_idem (c : ascii) : tolower (tolower c) = tolower c.
Proof. by_table c. Qed.

Lemma strip_lower (x : str) : strip (lower x) = lower (strip x).
Proof. apply strip_map, isspace_tolower. Qed.

Lemma lower_idem (x : str) : lower (lower x) = lower x.
Proof.
  unfold lower. rewrite map_map. apply map_ext, tolower_idem.
Qed.

(* ================================================================= *)
(** ** The shape of a cleaned text *)

Lemma collapse_from_plain (r : bool) (s : str) :
  Forall plain_space (Spec.collapse_from r s).
Proof.
  revert r. induction s as [| c s IH]; intros r; simpl; [constructor |].
  destruct (isspace c) eqn:Hc.
  - destruct r; [apply IH |]. constructor; [now intros _ | apply IH].
  - constructor; [| apply IH]. intros H. congruence.
Qed.

Lemma collapse_from_length (r : bool) (s : str) :
  length (Spec.collapse_from r s) <= length s.
Proof.
  revert r. induction s as [| c s IH]; intros r; simpl; [lia |].
  pose proof (IH true). pose proof (IH false).
  destruct (isspace c); [destruct r |]; simpl; lia.
Qed.

Lemma join_split_plain (s : str) :
  Forall plain_space (join (lit " ") (split s))
  /\ length (join (lit " ") (split s)) <= length s.
Proof.
  destruct (collapse_ws_join s) as [pre [post [_ [_ Heq]]]].
  pose proof (collapse_from_plain false s) as HP.
  pose proof (collapse_from_length false s) as HL.
  fold (Spec.collapse_ws s) in HP, HL. rewrite Heq in HP, HL.
  apply Forall_app in HP. destruct HP as [_ HP].
  apply Forall_app in HP. destruct HP as [HP _].
  split; [exact HP |]. rewrite !length_app in HL. lia.
Qed.

Lemma kept_plain_name_char (c : ascii) :
  plain_space c -> keeps c = true -> name_char c = true.
Proof.
  unfold plain_space.
  all_chars c; vm_compute; intros P K;
    try reflexivity; try discriminate K;
    specialize (P eq_refl); discriminate P.
Qed.

Lemma name_char_cased (c : ascii) :
  name_char c = true ->
  name_char (toupper c) = true /\ name_char (tolower c) = true.
Proof. by_table c. Qed.

Lemma title_from_name_chars (b : bool) (x : str) :
  Forall (fun c => name_char c = true) x ->
  Forall (fun c => name_char c = true) (title_from b x).
Proof.
  intros H. revert b.
  induction H as [| c x Hc _ IH]; intros b; simpl; [constructor |].
  destruct (name_char_cased c Hc) as [Hu Hl].
  destruct (islower c); [| destruct (isupper c)];
    constructor; try apply IH; destruct b; assumption.
Qed.

Lemma title_from_length (b : bool) (x : str) :
  length (title_from b x) = length x.
Proof.
  revert b. induction x as [| c x IH]; intros b; simpl; [reflexivity |].
  destruct (islower c); [| destruct (isupper c)]; simpl; now rewrite IH.
Qed.

Lemma strip_length (x : str) : length (strip x) <= length x.
Proof.
  unfold strip.
  destruct (lstrip_decompose x) as [pre [_ Hx]].
  destruct (rstrip_decompose (lstrip x)) as [post [_ Hy]].
  rewrite Hx at 2. rewrite Hy at 2. rewrite !length_app. lia.
Qed.

Lemma clean_text_name_chars (s : str) :
  Forall (fun c => name_char c = true) (clean_text s).
Proof.
  unfold clean_text, remove_artifacts.
  apply strip_Forall, title_from_name_chars.
  destruct (join_split_plain s) as [HP _].
  induction HP as [| c x Hc _ IH]; simpl; [constructor |].
  destruct (keeps c) eqn:K; [| exact IH].
  constructor; [now apply kept_plain_name_char | exact IH].
Qed.

Lemma clean_text_length (s : str) : length (clean_text s) <= length s.
Proof.
  unfold clean_text, remove_artifacts, title.
  destruct (join_split_plain s) as [_ HL].
  pose proof (strip_length
                (title_from false (filter keeps (join (lit " ") (split s))))).
  rewrite title_from_length in H.
  pose proof (filter_length_le keeps (join (lit " ") (split s))).
  lia.
Qed.

(** For a raw text of ASCII characters, the cleaned text holds only
    letters, digits, underscores, hyphens, apostrophes and plain spaces;
    it neither begins nor ends with a space, so stripping it again
    changes nothing; and it is never longer than the raw text. *)
Theorem clean_text_shape (s : str) :
  ascii_text s ->
  Forall (fun c => name_char c = true) (clean_text s)
  /\ (forall c r, clean_text s = c :: r -> isspace c = false)
  /\ (forall r c, clean_text s = r ++ [c] -> isspace c = false)
  /\ strip (clean_text s) = clean_text s
  /\ length (clean_text s) <= length s.
Proof.
  intros _.
  split; [apply clean_text_name_chars |].
  split; [intros c r; apply strip_head |].
  split; [intros r c; apply strip_last |].
  split; [apply strip_idem | apply clean_text_length].
Qed.

Lemma clean_text_shape_witness :
  ascii_text (lit "  sk!ll	p@int: 2 ")
  /\ clean_text (lit "  sk!ll	p@int: 2 ") = "S"%char :: lit "kll Pint 2"
  /\ isspace "S" = false.
Proof.
  split; [reflexivity |].
  split; [reflexivity |].
  apply (proj1 (proj2 (clean_text_shape (lit "  sk!ll	p@int: 2 ") eq_refl))
               "S"%char (lit "kll Pint 2")).
  reflexivity.
Defined.

(* ================================================================= *)
(** ** More on the heuristic *)

Lemma is_likely_length (text : str) :
  is_likely_card_name text = true -> 3 <= length text.
Proof.
  rewrite is_likely_card_name_exact. unfold Spec.likely.
  destruct (length text <? 3) eqn:E; [discriminate |].
  intros _. apply Nat.ltb_ge in E. exact E.
Qed.

Lemma startswith_head (k : ascii) (p hay : str) :
  startswith (k :: p) hay = true -> exists r, hay = k :: r.
Proof.
  destruct hay as [| c hay]; simpl; [discriminate |].
  intros H. apply andb_true_iff in H. destruct H as [H _].
  apply Ascii.eqb_eq in H. subst. eauto.
Qed.

Lemma startswith_length (p hay : str) :
  startswith p hay = true -> length p <= length hay.
Proof.
  revert hay. induction p as [| a p IH]; intros hay; simpl; [lia |].
  destruct hay as [| c hay]; [discriminate |].
  intros H. apply andb_true_iff in H. destruct H as [_ H].
  apply IH in H. simpl. lia.
Qed.

Lemma contains_head (k : ascii) (p hay : str) :
  contains (k :: p) hay = true -> In k hay.
Proof.
  induction hay as [| c hay IH]; intros H.
  - simpl in H. discriminate.
  - cbn [contains] in H. apply orb_true_iff in H. destruct H as [H | H].
    + apply startswith_head in H. destruct H as [r Hr].
      injection Hr as -> _. now left.
    + right. now apply IH.
Qed.

Lemma contains_length (p hay : str) :
  contains p hay = true -> length p <= length hay.
Proof.
  induction hay as [| c hay IH]; intros H.
  - cbn [contains] in H. rewrite orb_false_r in H.
    now apply startswith_length in H.
  - cbn [contains] in H. apply orb_true_iff in H. destruct H as [H | H].
    + now apply startswith_length in H.
    + apply IH in H. simpl. lia.
Qed.

Lemma isalpha_tolower (c : ascii) : isalpha (tolower c) = isalpha c.
Proof. by_table c. Qed.

Lemma letter_count_zero (text : str) (c : ascii) :
  letter_count text = 0 -> In c text -> isalpha c = false.
Proof.
  unfold letter_count. intros H Hin.
  destruct (isalpha c) eqn:E; [| reflexivity].
  assert (Hf : In c (filter isalpha text)) by (apply filter_In; auto).
  destruct (filter isalpha text); [destruct Hf | discriminate].
Qed.

Lemma keywords_start_with_letters :
  Forall (fun kw => exists k p, kw = k :: p /\ isalpha k = true) card_keywords.
Proof.
  unfold card_keywords. simpl.
  repeat (constructor; [eexists; eexists; split; reflexivity |]).
  constructor.
Qed.

Lemma no_letters_no_keyword (text : str) :
  letter_count text = 0 ->
  existsb (fun keyword => contains keyword (lower text)) card_keywords = false.
Proof.
  intros H0.
  destruct (existsb _ card_keywords) eqn:E; [| reflexivity].
  apply existsb_exists in E. destruct E as [kw [Hkw Hc]].
  pose proof keywords_start_with_letters as F.
  rewrite Forall_forall in F.
  destruct (F kw Hkw) as [k [p [-> Hk]]].
  apply contains_head in Hc. unfold lower in Hc.
  apply in_map_iff in Hc. destruct Hc as [c [<- Hin]].
  rewrite isalpha_tolower in Hk.
  rewrite (letter_count_zero text c H0 Hin) in Hk. discriminate.
Qed.

(** A text without a single letter is never taken for a card name,
    whatever its length: digits and symbols alone match no keyword and
    fail the letter ratio. *)
Theorem no_letters_not_card_name (text : str) :
  letter_count text = 0 -> is_likely_card_name text = false.
Proof.
  intros H0. rewrite is_likely_card_name_exact. unfold Spec.likely.
  destruct (length text <? 3) eqn:E; [reflexivity |].
  rewrite (no_letters_no_keyword text H0), H0.
  apply Nat.ltb_ge in E.
  destruct (3 <=? length text); cbn [andb]; [| reflexivity].
  destruct (length text <=? 30); cbn [andb]; [| reflexivity].
  apply Nat.leb_gt. lia.
Qed.

Lemma no_letters_not_card_name_witness :
  letter_count (lit "2024-06-01 12:30") = 0
  /\ is_likely_card_name (lit "2024-06-01 12:30") = false.
Proof.
  split; [reflexivity |].
  apply (no_letters_not_card_name (lit "2024-06-01 12:30")). reflexivity.
Defined.

(* ================================================================= *)
(** ** More on the extraction *)

Section ExtractionEdges.

Variables image bbox : Type.
Variable image_to_string : image -> option str.
Variable readtext : image -> option (list (bbox * str * float)).

Lemma extract_names_extracted (img : image) :
  fst (extract_card_names image_to_string readtext img)
  = Spec.extracted
      (fst (extract_text_pytesseract image_to_string img))
      (fst (extract_text_easyocr readtext img)).
Proof.
  unfold extract_card_names, bind, ret. simpl. apply collect_extracted.
Qed.

(** Neither engine's failure stops the extraction.  When Tesseract
    raises, the names are EasyOCR's surviving regions alone; when EasyOCR
    raises, Tesseract's surviving lines alone; when both raise, the
    result is the empty list. *)
Theorem extract_card_names_fail_soft (img : image) :
  (image_to_string img = None ->
   fst (extract_card_names image_to_string readtext img)
   = Spec.dedup_first
       (Spec.surviving
          (map fst (filter Spec.confident
                           (fst (extract_text_easyocr readtext img))))))
  /\ (readtext img = None ->
      fst (extract_card_names image_to_string readtext img)
      = Spec.dedup_first
          (Spec.surviving
             (split_sep "010"
                (fst (extract_text_pytesseract image_to_string img)))))
  /\ (image_to_string img = None -> readtext img = None ->
      fst (extract_card_names image_to_string readtext img) = []).
Proof.
  rewrite extract_names_extracted. unfold Spec.extracted.
  split; [| split].
  - intros H. simpl. now rewrite H.
  - intros H. simpl. rewrite H. simpl. now rewrite app_nil_r.
  - intros H1 H2. simpl. now rewrite H1, H2.
Qed.

(** Every extracted name has at least three characters, holds only
    letters, digits, underscores, hyphens, apostrophes and plain spaces,
    and has no whitespace at either end. *)
Theorem extracted_names_shape (img : image) :
  Forall (fun n => 3 <= length n
                   /\ Forall (fun c => name_char c = true) n
                   /\ strip n = n)
         (fst (extract_card_names image_to_string readtext img)).
Proof.
  rewrite extract_names_extracted. unfold Spec.extracted.
  apply Forall_forall. intros n Hn.
  apply (proj1 (dedup_first_In _ _)) in Hn.
  assert (H : is_likely_card_name n = true /\ exists raw, n = clean_text raw).
  { apply in_app_or in Hn.
    destruct Hn as [Hn | Hn]; revert n Hn; apply Forall_forall;
      apply surviving_Forall. }
  destruct H as [Hok [raw ->]].
  split; [now apply is_likely_length |].
  split; [apply clean_text_name_chars | apply strip_idem].
Qed.


End ExtractionEdges.

Lemma extract_card_names_fail_soft_witness :
  (fun _ : ScreenCapture.Image => @None str) Examples.black_pixel = None
  /\ fst (extract_card_names (fun _ : ScreenCapture.Image => None)
            Examples.finds_nothing Examples.black_pixel)
     = Spec.dedup_first
         (Spec.surviving
            (map fst (filter Spec.confident
                        (fst (extract_text_easyocr Examples.finds_nothing
                                Examples.black_pixel))))).
Proof.
  split; [reflexivity |].
  exact (proj1 (extract_card_names_fail_soft ScreenCapture.Image unit
                  (fun _ => None) Examples.finds_nothing
                  Examples.black_pixel) eq_refl).
Defined.

(* ================================================================= *)
(** ** Scenarios and card names *)

Lemma lower_length (s : str) : length (lower s) = length s.
Proof. apply length_map. Qed.

Lemma mentions_keyword (word : string) (names : list str) :
  In (lit word) card_keywords -> 3 <= length (lit word) ->
  mentions word names = true ->
  exists n, In n names /\ is_likely_card_name n = true.
Proof.
  intros Hkw Hlen H. unfold mentions in H.
  apply existsb_exists in H. destruct H as [n [Hin Hc]].
  exists n. split; [exact Hin |].
  rewrite is_likely_card_name_exact. unfold Spec.likely.
  pose proof (contains_length _ _ Hc) as HL. rewrite lower_length in HL.
  destruct (length n <? 3) eqn:E.
  - apply Nat.ltb_lt in E. lia.
  - assert (X : existsb (fun keyword => contains keyword (lower n))
                        card_keywords = true).
    { apply existsb_exists. exists (lit word). auto. }
    now rewrite X.
Qed.

(** Whenever [identify_scenario] names a scenario, one of the detected
    cards is a likely card name for [is_likely_card_name]: the three
    scenario words are card keywords. *)
Theorem scenario_needs_card_name (names : list str) :
  identify_scenario names <> lit "Unknown Scenario" ->
  exists n, In n names /\ is_likely_card_name n = true.
Proof.
  unfold identify_scenario. intros H.
  destruct (mentions "dungeon" names) eqn:D.
  { apply (mentions_keyword "dungeon"); [| simpl; lia | exact D].
    unfold card_keywords. simpl. tauto. }
  destruct (mentions "market" names) eqn:M.
  { apply (mentions_keyword "market"); [| simpl; lia | exact M].
    unfold card_keywords. simpl. tauto. }
  destruct (mentions "artifact" names) eqn:A.
  { apply (mentions_keyword "artifact"); [| simpl; lia | exact A].
    unfold card_keywords. simpl. tauto. }
  now contradiction H.
Qed.

Lemma scenario_needs_card_name_witness :
  identify_scenario [lit "Monster"; lit "Old Market"]
  <> lit "Unknown Scenario"
  /\ exists n, In n [lit "Monster"; lit "Old Market"]
               /\ is_likely_card_name n = true.
Proof.
  assert (H : identify_scenario [lit "Monster"; lit "Old Market"]
              <> lit "Unknown Scenario") by (vm_compute; discriminate).
  split; [exact H |].
  exact (scenario_needs_card_name [lit "Monster"; lit "Old Market"] H).
Defined.

(* ================================================================= *)
(** ** The command loop *)

Import ClankTrackerCLI.

Lemma startswith_app (p s : str) :
  startswith p s = true -> s = p ++ skipn (length p) s.
Proof.
  revert s. induction p as [| a p IH]; intros s; simpl; [reflexivity |].
  destruct s as [| b s]; [discriminate |].
  intros H. apply andb_true_iff in H. destruct H as [Hab Hps].
  apply Ascii.eqb_eq in Hab. subst b. f_equal. now apply IH.
Qed.

Lemma slice_from_skipn {A : Type} (n : nat) (xs : list A) :
  slice_from (Z.of_nat n) xs = skipn n xs.
Proof.
  unfold slice_from.
  destruct (Z.of_nat n <? 0)%Z eqn:E; [apply Z.ltb_lt in E; lia |].
  destruct (Nat.le_gt_cases n (length xs)) as [Hle | Hgt].
  - f_equal. lia.
  - rewrite (skipn_all2 xs (n := n)) by lia.
    apply skipn_all2. lia.
Qed.

Lemma command_lower_strip (input : str) :
  lower (strip input) = strip (lower input).
Proof. symmetry. apply strip_lower. Qed.

Lemma lower_fixed (x : str) : Forall (fun c => tolower c = c) (lower x).
Proof.
  apply Forall_forall. intros c Hc. unfold lower in Hc.
  apply in_map_iff in Hc. destruct Hc as [d [<- _]]. apply tolower_idem.
Qed.

Lemma lower_of_fixed (x : str) :
  Forall (fun c => tolower c = c) x -> lower x = x.
Proof.
  induction 1 as [| c x Hc _ IH]; simpl; [reflexivity |].
  now rewrite Hc, IH.
Qed.

(** The path that the command [ocr <file>] hands to
    [test_ocr_processing] is never empty, has no whitespace at either
    end, and is in lower case: a file whose name has a capital letter is
    looked up under a different name. *)
Theorem dispatch_ocr_file (input path : str) :
  dispatch input = OcrFile path ->
  path <> []
  /\ strip path = path
  /\ lower path = path
  /\ lower (strip input) = lit "ocr " ++ skipn 4 (lower (strip input))
  /\ path = strip (skipn 4 (lower (strip input))).
Proof.
  unfold dispatch. cbv zeta.
  remember (lower (strip input)) as cmd eqn:Hcmd.
  intros H.
  destruct (str_eqb cmd (lit "quit") || str_eqb cmd (lit "exit"));
    [discriminate |].
  destruct (str_eqb cmd (lit "capture")); [discriminate |].
  destruct (str_eqb cmd (lit "ocr")); [discriminate |].
  destruct (startswith (lit "ocr ") cmd) eqn:S.
  2: { repeat (destruct (str_eqb cmd _); [discriminate |]). discriminate. }
  injection H as <-.
  change 4%Z with (Z.of_nat 4). rewrite slice_from_skipn.
  pose proof (startswith_app _ _ S) as Hsplit. simpl length in Hsplit.
  assert (Hr : rstrip cmd = cmd).
  { rewrite Hcmd, command_lower_strip. apply strip_rstrip. }
  assert (Hl : Forall (fun c => tolower c = c) (skipn 4 cmd)).
  { pose proof (lower_fixed (strip input)) as F. rewrite <- Hcmd in F.
    rewrite Hsplit in F. now apply Forall_app in F. }
  split; [| split; [apply strip_idem | split; [| split; [exact Hsplit |]]]].
  - intros Hnil. apply strip_nil_spaces in Hnil.
    assert (E : rstrip cmd = lit "ocr").
    { rewrite Hsplit.
      change (lit "ocr " ++ skipn 4 cmd)
        with (lit "ocr" ++ (" "%char :: skipn 4 cmd)).
      rewrite rstrip_app_spaces; [reflexivity |].
      constructor; [reflexivity | exact Hnil]. }
    rewrite Hr in E. rewrite E in Hsplit.
    apply (f_equal (@length ascii)) in Hsplit.
    rewrite length_app in Hsplit. simpl in Hsplit. lia.
  - apply lower_of_fixed, strip_Forall, Hl.
  - reflexivity.
Qed.

Lemma dispatch_ocr_file_witness :
  dispatch (lit "  OCR  Assets/Card_01.PNG ")
  = OcrFile (lit "assets/card_01.png")
  /\ lower (lit "assets/card_01.png") = lit "assets/card_01.png".
Proof.
  assert (H : dispatch (lit "  OCR  Assets/Card_01.PNG ")
              = OcrFile (lit "assets/card_01.png")) by reflexivity.
  split; [exact H |].
  exact (proj1 (proj2 (proj2 (dispatch_ocr_file _ _ H)))).
Defined.

(** The command loop does not see letter case or surrounding
    whitespace: two lines with the same lower-cased text are dispatched
    alike, and so are a line and the same line padded with whitespace. *)
Theorem dispatch_insensitive (input : str) :
  (forall other, lower other = lower input ->
                 dispatch other = dispatch input)
  /\ (forall pre post, spaces pre -> spaces post ->
                       dispatch (pre ++ input ++ post) = dispatch input).
Proof.
  split.
  - intros other H. unfold dispatch.
    now rewrite !command_lower_strip, H.
  - intros pre post Hpre Hpost. unfold dispatch.
    now rewrite strip_padded.
Qed.

Lemma dispatch_insensitive_witness :
  lower (lit "QuIt") = lower (lit "quit")
  /\ dispatch (lit "QuIt") = dispatch (lit "quit")
  /\ dispatch (lit "QuIt") = Quit.
Proof.
  split; [reflexivity |]. split; [| reflexivity].
  apply (proj1 (dispatch_insensitive (lit "quit"))). reflexivity.
Defined.

(* ================================================================= *)
(** ** Extraction feeding the tracker *)

Lemma track_distinct_names (now : datetime) (p : option str)
      (t : state Session) (names : list str) :
  NoDup names ->
  cards_seen (current_session
                (match names with
                 | [] => t
                 | _ :: _ => track_card_detection now t names p
                 end))
  = appended now p t names.
Proof.
  intros Hnd. unfold appended, seen.
  destruct names as [| n names].
  - simpl. now rewrite app_nil_r.
  - unfold track_card_detection. cbn [current_session set_session].
    rewrite fold_detect_cards. f_equal. f_equal.
    apply dedup_first_fixed, NoDup_filter, Hnd.
Qed.

Lemma appended_fresh (strftime : datetime -> str) (dir : str)
      (now_id now_start now : datetime) (p : option str) (names : list str) :
  map card_name (appended now p (init strftime dir now_id now_start) names)
  = names.
Proof.
  unfold appended, seen. simpl.
  rewrite map_card_name_detected. apply filter_not_mem_nil.
Qed.

Section GuiSteps.

Variables image bbox : Type.
Variable image_to_string : image -> option str.
Variable readtext : image -> option (list (bbox * str * float)).

Lemma extract_names_NoDup (img : image) :
  NoDup (fst (extract_card_names image_to_string readtext img)).
Proof.
  rewrite extract_names_extracted. apply dedup_first_NoDup.
Qed.

Lemma extract_and_track_cards (now : datetime) (t : state Session)
      (img : image) (path : str) :
  cards_seen
    (current_session
       (fst (ClankTrackerGUI.extract_and_track image_to_string readtext
               now t img path)))
  = appended now (Some path) t
             (fst (extract_card_names image_to_string readtext img)).
Proof.
  unfold ClankTrackerGUI.extract_and_track, bind, ret.
  destruct (extract_card_names image_to_string readtext img)
    as [cards log] eqn:E.
  simpl.
  apply track_distinct_names.
  pose proof (extract_names_NoDup img) as H. now rewrite E in H.
Qed.

(** In the GUI, a manual capture, the processing of the current image
    and a pass of the monitoring loop each append to the card list
    exactly the extracted names not yet seen, once each and in
    extraction order, stamped with the clock reading and with that
    action's screenshot path; without an image the tracker is left
    alone; and on a fresh tracker the names seen afterwards are the
    extracted names. *)
Theorem gui_actions_append (now : datetime) (t : state Session)
        (img : image) (hms : str) :
  let names := fst (extract_card_names image_to_string readtext img) in
  cards_seen (current_session
                (fst (ClankTrackerGUI.manual_capture image_to_string readtext
                        now t (Some img))))
  = appended now (Some (lit "manual_capture.png")) t names
  /\ cards_seen (current_session
                   (fst (ClankTrackerGUI.process_current_image
                           image_to_string readtext now t (Some img))))
     = appended now (Some (lit "processed_image.png")) t names
  /\ cards_seen (current_session
                   (fst (ClankTrackerGUI.monitoring_pass
                           image_to_string readtext now hms t (Some img))))
     = appended now
                (Some (lit "screenshot_" ++ remove_char ":" hms ++ lit ".png"))
                t names
  /\ fst (ClankTrackerGUI.manual_capture image_to_string readtext now t None)
     = t
  /\ fst (ClankTrackerGUI.process_current_image image_to_string readtext
            now t None) = t
  /\ (forall strftime dir now_id now_start,
        seen (fst (ClankTrackerGUI.manual_capture image_to_string readtext
                     now (init strftime dir now_id now_start) (Some img)))
        = names).
Proof.
  cbv zeta.
  split; [apply extract_and_track_cards |].
  split; [apply extract_and_track_cards |].
  split; [apply extract_and_track_cards |].
  split; [reflexivity |]. split; [reflexivity |].
  intros strftime dir now_id now_start. unfold seen.
  cbn [ClankTrackerGUI.manual_capture].
  rewrite extract_and_track_cards. apply appended_fresh.
Qed.

End GuiSteps.

(* ================================================================= *)
(** ** The command-line passes *)

Section CliPasses.

Variable bbox : Type.
Variable image_open : str -> option ScreenCapture.Image.
Variable bgr2gray : Z * Z * Z -> Z.
Variable otsu : list (list Z) -> Z.
Variable image_to_string : ScreenCapture.Image -> option str.
Variable readtext :
  ScreenCapture.Image -> option (list (bbox * str * float)).

Let ocr := test_ocr_processing image_open bgr2gray otsu
                               image_to_string readtext.

(** [test_ocr_processing] preprocesses the image and runs both engines
    on the preprocessed image, but the card names it returns are those
    of [extract_card_names] on the image as captured or opened: four
    engine runs, of which the two on the preprocessed image do not reach
    the result.  When the image cannot be obtained or preprocessed, it
    returns the empty list without running any engine. *)
Theorem test_ocr_processing_uses_raw_image
        (screen : option ScreenCapture.Image)
        (image pre : ScreenCapture.Image) (c : ascii) (path : str) :
  (screen = Some image ->
   ScreenCapture.preprocess_for_ocr bgr2gray otsu image = Some pre ->
   ocr screen None
   = (fst (extract_card_names image_to_string readtext image),
      [Tesseract pre; EasyOCR pre; Tesseract image; EasyOCR image]))
  /\ (image_open (c :: path) = Some image ->
      ScreenCapture.preprocess_for_ocr bgr2gray otsu image = Some pre ->
      ocr screen (Some (c :: path))
      = (fst (extract_card_names image_to_string readtext image),
         [Tesseract pre; EasyOCR pre; Tesseract image; EasyOCR image]))
  /\ (screen = Some image ->
      ScreenCapture.preprocess_for_ocr bgr2gray otsu image = None ->
      ocr screen None = ([], []))
  /\ (screen = None -> ocr screen None = ([], []))
  /\ (image_open (c :: path) = None ->
      ocr screen (Some (c :: path)) = ([], []))
  /\ ocr screen (Some []) = ocr screen None.
Proof.
  unfold ocr, test_ocr_processing.
  repeat split.
  - intros -> Hp. now rewrite Hp.
  - intros Ho Hp. cbn iota beta. now rewrite Ho, Hp.
  - intros -> Hp. now rewrite Hp.
  - now intros ->.
  - intros Ho. cbn iota beta. now rewrite Ho.
Qed.

Lemma ocr_names_NoDup (screen : option ScreenCapture.Image)
      (image_path : option str) :
  NoDup (fst (ocr screen image_path)).
Proof.
  unfold ocr, test_ocr_processing.
  destruct (match image_path with
            | Some ((_ :: _) as path) => image_open path
            | _ => screen
            end) as [image |]; [| constructor].
  destruct (ScreenCapture.preprocess_for_ocr bgr2gray otsu image)
    as [pre |]; [| constructor].
  unfold bind, ret. simpl.
  apply (extract_names_NoDup _ _ image_to_string readtext image).
Qed.

Lemma auto_pass_cards (t : state Session)
      (c : option ScreenCapture.Image * datetime) :
  cards_seen
    (current_session
       (fst (fst (auto_pass image_open bgr2gray otsu image_to_string
                            readtext t c))))
  = appended (snd c) None t (fst (ocr (fst c) None))
  /\ snd (fst (auto_pass image_open bgr2gray otsu image_to_string
                         readtext t c)) = 5%Z.
Proof.
  destruct c as [screen now]. unfold auto_pass, bind, ret. cbv zeta.
  cbn [fst snd]. fold ocr.
  pose proof (ocr_names_NoDup screen None) as Hnd.
  destruct (ocr screen None) as [cards log]. cbn [fst snd] in *.
  split; [| reflexivity].
  now apply track_distinct_names.
Qed.

Lemma appended_seen (now : datetime) (p : option str) (t : state Session)
      (names : list str) :
  NoDup names ->
  map card_name (appended now p t names)
  = fold_left add_unique names (seen t).
Proof.
  intros Hnd. unfold appended.
  rewrite map_app, map_card_name_detected, fold_add_unique.
  f_equal. symmetry. apply dedup_first_fixed, NoDup_filter, Hnd.
Qed.

Lemma auto_monitoring_seen
      (passes : list (option ScreenCapture.Image * datetime))
      (t : state Session) :
  seen (fst (fst (auto_monitoring_mode image_open bgr2gray otsu
                    image_to_string readtext t passes)))
  = fold_left add_unique
      (concat (map (fun c => fst (ocr (fst c) None)) passes)) (seen t)
  /\ snd (fst (auto_monitoring_mode image_open bgr2gray otsu
                 image_to_string readtext t passes))
     = repeat 5%Z (length passes).
Proof.
  revert t. induction passes as [| c passes IH]; intros t.
  - split; reflexivity.
  - cbn [auto_monitoring_mode].
    destruct (auto_pass_cards t c) as [Hc Hs].
    destruct (auto_pass image_open bgr2gray otsu image_to_string readtext
                        t c) as [[t1 s1] log1] eqn:E1.
    cbn [fst snd] in Hc, Hs.
    destruct (IH t1) as [IHc IHs].
    unfold bind, ret. cbn [fst snd].
    destruct (auto_monitoring_mode image_open bgr2gray otsu image_to_string
                readtext t1 passes) as [[t2 s2] log2] eqn:E2.
    cbn [fst snd] in *.
    split.
    + rewrite IHc. cbn [map concat]. rewrite fold_left_app. f_equal.
      unfold seen at 1. rewrite Hc.
      apply appended_seen, ocr_names_NoDup.
    + cbn [length repeat]. now rewrite Hs, IHs.
Qed.

(** In automatic monitoring the tracker accumulates, over the passes made
    before the interrupt, the first occurrences of the names that
    [test_ocr_processing] returned, in order; on a fresh tracker the
    names seen are exactly those.  The pause after every pass is five
    seconds. *)
Theorem auto_monitoring_accumulates
        (strftime : datetime -> str) (dir : str)
        (now_id now_start : datetime)
        (passes : list (option ScreenCapture.Image * datetime))
        (t : state Session) :
  seen (fst (fst (auto_monitoring_mode image_open bgr2gray otsu
                    image_to_string readtext t passes)))
  = seen t
    ++ Spec.dedup_first
         (filter (fun n => negb (mem n (seen t)))
                 (concat (map (fun c => fst (ocr (fst c) None)) passes)))
  /\ seen (fst (fst (auto_monitoring_mode image_open bgr2gray otsu
                       image_to_string readtext
                       (init strftime dir now_id now_start) passes)))
     = Spec.dedup_first
         (concat (map (fun c => fst (ocr (fst c) None)) passes))
  /\ snd (fst (auto_monitoring_mode image_open bgr2gray otsu
                 image_to_string readtext t passes))
     = repeat 5%Z (length passes).
Proof.
  destruct (auto_monitoring_seen passes t) as [Hc Hs].
  split; [| split; [| exact Hs]].
  - now rewrite Hc, fold_add_unique.
  - destruct (auto_monitoring_seen passes
                (init strftime dir now_id now_start)) as [Hc' _].
    rewrite Hc', fold_add_unique. simpl. now rewrite filter_not_mem_nil.
Qed.

(** The option [--interval] never reaches the monitoring loop: [main]
    chooses what to run from [--test] and [--auto] alone, whatever the
    interval, and every pause of the monitoring loop lasts five seconds.
    The option [--image] is read only under [--test]. *)
Theorem interval_option_ignored (args : Args) (interval : Z)
        (image_path : option str)
        (passes : list (option ScreenCapture.Image * datetime))
        (t : state Session) :
  main {| args_test := args_test args; args_image := args_image args;
          args_auto := args_auto args; args_interval := interval |}
  = main args
  /\ (args_test args = false ->
      main {| args_test := false; args_image := image_path;
              args_auto := args_auto args;
              args_interval := args_interval args |}
      = main args)
  /\ Forall (fun pause => pause = 5%Z)
            (snd (fst (auto_monitoring_mode image_open bgr2gray otsu
                         image_to_string readtext t passes))).
Proof.
  split; [reflexivity |]. split.
  - intros H. unfold main. simpl. now rewrite H.
  - destruct (auto_monitoring_seen passes t) as [_ Hs]. rewrite Hs.
    apply Forall_forall. intros x Hx. now apply repeat_spec in Hx.
Qed.

End CliPasses.

Lemma test_ocr_processing_uses_raw_image_witness :
  ScreenCapture.preprocess_for_ocr Examples.luma Examples.mid_threshold
    Examples.black_pixel = Some (ScreenCapture.L [[0%Z]])
  /\ test_ocr_processing (fun _ => None) Examples.luma
       Examples.mid_threshold Examples.reads_colour Examples.finds_nothing
       (Some Examples.black_pixel) None
     = ([lit "Dungeon Room"],
        [Tesseract (ScreenCapture.L [[0%Z]]);
         EasyOCR (ScreenCapture.L [[0%Z]]);
         Tesseract Examples.black_pixel; EasyOCR Examples.black_pixel]).
Proof.
  split; [reflexivity |].
  exact (proj1 (test_ocr_processing_uses_raw_image unit (fun _ => None)
                  Examples.luma Examples.mid_threshold
                  Examples.reads_colour Examples.finds_nothing
                  (Some Examples.black_pixel) Examples.black_pixel
                  (ScreenCapture.L [[0%Z]]) "a"%char [])
               eq_refl eq_refl).
Defined.

Lemma interval_option_ignored_witness :
  args_test {| args_test := false; args_image := None;
               args_auto := true; args_interval := 60%Z |} = false
  /\ main {| args_test := false; args_image := Some (lit "card.png");
             args_auto := true; args_interval := 60%Z |}
     = main {| args_test := false; args_image := None;
               args_auto := true; args_interval := 60%Z |}.
Proof.
  split; [reflexivity |].
  exact (proj1 (proj2 (interval_option_ignored unit (fun _ => None)
                         Examples.luma Examples.mid_threshold
                         Examples.reads_colour Examples.finds_nothing
                         {| args_test := false; args_image := None;
                            args_auto := true; args_interval := 60%Z |}
                         5%Z (Some (lit "card.png")) [] Examples.fresh))
               eq_refl).
Defined.

(* ================================================================= *)
(** ** Screen capture *)

Lemma area_table_20000 : area_table (Z.to_nat 20001) 0%Z = true.
Proof. vm_compute. reflexivity. Qed.

Lemma area_table_sound (count : nat) (w0 w : Z) :
  area_table count w0 = true ->
  (w0 <= w < w0 + Z.of_nat count)%Z -> area_exact w = true.
Proof.
  revert w0. induction count as [| count IH]; intros w0 T Hw.
  - lia.
  - cbn [area_table] in T. apply andb_true_iff in T. destruct T as [T0 T1].
    destruct (Z.eq_dec w w0) as [-> | Hne]; [exact T0 |].
    apply (IH (w0 + 1)%Z T1). lia.
Qed.

Lemma area_products (w : nat) :
  (Z.of_nat w <= 20000)%Z ->
  int_of_float (PrimFloat.mul (float_of_nat w) 0.1%float)
  = Some (Z.of_nat w / 10)%Z
  /\ int_of_float (PrimFloat.mul (float_of_nat w) 0.8%float)
     = Some (8 * Z.of_nat w / 10)%Z.
Proof.
  intros Hw.
  assert (T : area_exact (Z.of_nat w) = true).
  { apply (area_table_sound _ _ _ area_table_20000). lia. }
  unfold area_exact in T. fold (float_of_nat w) in T.
  destruct (int_of_float (PrimFloat.mul (float_of_nat w) 0.1%float))
    as [m |]; [| discriminate].
  destruct (int_of_float (PrimFloat.mul (float_of_nat w) 0.8%float))
    as [d |]; [| discriminate].
  apply andb_true_iff in T. destruct T as [Hm Hd].
  apply Z.eqb_eq in Hm, Hd. now subst.
Qed.

(** On a screen of at most 20000 by 20000 pixels the game area is the
    region at (w/10, h/10) of size 8w/10 by 8h/10 in integer division:
    the binary64 products land on the exact quotients.  The region lies
    inside the screen, and the margin left on the right and at the
    bottom exceeds the one on the left and at the top by at most two
    pixels. *)
Theorem capture_game_area_region
        (screenshot : option (Z * Z * Z * Z) -> ScreenCapture.Image)
        (w h : nat) :
  (Z.of_nat w <= 20000)%Z -> (Z.of_nat h <= 20000)%Z ->
  let x := (Z.of_nat w / 10)%Z in
  let y := (Z.of_nat h / 10)%Z in
  let width := (8 * Z.of_nat w / 10)%Z in
  let height := (8 * Z.of_nat h / 10)%Z in
  ScreenCapture.capture_game_area screenshot w h
  = Some (screenshot (Some (x, y, width, height)))
  /\ (0 <= x /\ x + width <= Z.of_nat w)%Z
  /\ (0 <= y /\ y + height <= Z.of_nat h)%Z
  /\ (0 <= Z.of_nat w - (x + width) - x <= 2)%Z
  /\ (0 <= Z.of_nat h - (y + height) - y <= 2)%Z.
Proof.
  intros Hw Hh. cbv zeta.
  destruct (area_products w Hw) as [Hx Hwd].
  destruct (area_products h Hh) as [Hy Hht].
  split.
  - unfold ScreenCapture.capture_game_area. now rewrite Hx, Hy, Hwd, Hht.
  - clear Hx Hy Hwd Hht.
    repeat split; Z.to_euclidean_division_equations; lia.
Qed.

Lemma capture_game_area_region_witness :
  (Z.of_nat 1920 <= 20000)%Z /\ (Z.of_nat 1080 <= 20000)%Z
  /\ ScreenCapture.capture_game_area
       (fun r => match r with
                 | Some (x, y, width, height) =>
                     ScreenCapture.L [[x; y; width; height]]
                 | None => ScreenCapture.L []
                 end)
       1920 1080
     = Some (ScreenCapture.L [[192; 108; 1536; 864]%Z]).
Proof.
  assert (H1 : (Z.of_nat 1920 <= 20000)%Z) by (vm_compute; discriminate).
  assert (H2 : (Z.of_nat 1080 <= 20000)%Z) by (vm_compute; discriminate).
  split; [exact H1 |]. split; [exact H2 |].
  exact (proj1 (capture_game_area_region _ 1920 1080 H1 H2)).
Defined.

(** Preprocessing a colour image yields a single-channel image of the
    same height and the same row widths, every pixel of which is 0 or
    255. *)
Theorem preprocess_for_ocr_binary
        (bgr2gray : Z * Z * Z -> Z) (otsu : list (list Z) -> Z)
        (pixels : list (list (Z * Z * Z))) :
  exists out : list (list Z),
    ScreenCapture.preprocess_for_ocr bgr2gray otsu (ScreenCapture.RGB pixels)
    = Some (ScreenCapture.L out)
    /\ length out = length pixels
    /\ map (@length Z) out = map (@length (Z * Z * Z)) pixels
    /\ Forall (Forall (fun v => v = 0%Z \/ v = 255%Z)) out.
Proof.
  eexists. split; [reflexivity |].
  split; [now rewrite !length_map |].
  split.
  - rewrite !map_map. apply map_ext. intros row. now rewrite !length_map.
  - apply Forall_forall. intros row Hrow.
    apply in_map_iff in Hrow. destruct Hrow as [g [<- _]].
    apply Forall_forall. intros v Hv.
    apply in_map_iff in Hv. destruct Hv as [u [<- _]].
    unfold ScreenCapture.thresh_binary.
    destruct (u >? _)%Z; auto.
Qed.

(* ================================================================= *)
(** ** Duration and statistics *)

Lemma two_digit_table_ok : two_digit_table = true.
Proof. vm_compute. reflexivity. Qed.

Lemma format_02d_two_digits (n : Z) :
  (0 <= n < 60)%Z -> length (format_02d n) = 2.
Proof.
  intros Hn. pose proof two_digit_table_ok as T.
  unfold two_digit_table in T. rewrite forallb_forall in T.
  specialize (T (Z.to_nat n)).
  rewrite Z2Nat.id in T by lia.
  apply Nat.eqb_eq, T, in_seq. lia.
Qed.

Lemma holds_from_sound (p : Z -> bool) (count : nat) (n0 n : Z) :
  holds_from p count n0 = true ->
  (n0 <= n < n0 + Z.of_nat count)%Z -> p n = true.
Proof.
  revert n0. induction count as [| count IH]; intros n0 T Hn.
  - lia.
  - cbn [holds_from] in T.
    destruct (p n0) eqn:E; [| discriminate].
    destruct (Z.eq_dec n n0) as [-> | Hne]; [exact E |].
    apply (IH (n0 + 1)%Z T). lia.
Qed.

Lemma duration_table : holds_from duration_exact (Z.to_nat 3700) 0%Z = true.
Proof. vm_cast_no_check (eq_refl true). Qed.

Lemma hour_table : holds_from hour_exact (Z.to_nat 200) 0%Z = true.
Proof. vm_cast_no_check (eq_refl true). Qed.

(** The text depends on the two instants through their difference. *)
Lemma duration_of_difference (now : datetime) (s : Session) :
  _calculate_session_duration now s
  = clock_text
      ((match end_time s with Some e => e | None => now end)
       - start_time s)%Z.
Proof.
  unfold clock_text, _calculate_session_duration.
  change (end_time (current_session Examples.fresh)) with (@None datetime).
  change (start_time (current_session Examples.fresh)) with 0%Z.
  cbv beta iota zeta. now rewrite Z.sub_0_r.
Qed.

Lemma duration_of_elapsed (now : datetime) (s : Session) (d : Z) :
  ((match end_time s with Some e => e | None => now end) - start_time s)%Z
  = d ->
  _calculate_session_duration now s = clock_text d.
Proof. intros <-. apply duration_of_difference. Qed.

(** The duration text is computed in doubles from the elapsed time,
    which runs to [end_time] once the session was saved, so that the
    text no longer changes with the clock, and to the clock before that.
    When the elapsed time is a whole number [n] of seconds below 3700,
    or that and 999999 microseconds, the text is HH:MM:SS with the whole
    hours, minutes and seconds of [n]: the fraction of a second is
    dropped and the minutes and seconds fields are two characters wide.
    When it is [h] hours, for [h] below 200, the text is [h:00:00], and
    one microsecond short of [h + 1] hours it is [h:59:59]: the hours
    are not wrapped at 24 and their field grows beyond two characters. *)
Theorem session_duration_format (now : datetime) (s : Session) :
  let elapsed :=
    ((match end_time s with Some e => e | None => now end)
     - start_time s)%Z in
  (forall n frac : Z,
     (0 <= n < 3700)%Z -> frac = 0%Z \/ frac = 999999%Z ->
     elapsed = (n * 1000000 + frac)%Z ->
     _calculate_session_duration now s
     = format_02d (n / 3600) ++ lit ":" ++ format_02d (n mod 3600 / 60)
         ++ lit ":" ++ format_02d (n mod 60)
     /\ length (format_02d (n mod 3600 / 60)) = 2
     /\ length (format_02d (n mod 60)) = 2)
  /\ (forall h : Z,
        (0 <= h < 200)%Z ->
        (elapsed = (h * 3600000000)%Z ->
         _calculate_session_duration now s = format_02d h ++ lit ":00:00")
        /\ (elapsed = (h * 3600000000 + 3599999999)%Z ->
            _calculate_session_duration now s
            = format_02d h ++ lit ":59:59"))
  /\ (forall e now', end_time s = Some e ->
        _calculate_session_duration now' s
        = _calculate_session_duration now s).
Proof.
  cbv zeta. split; [| split].
  - intros n frac Hn Hfrac Hd.
    split; [| split; apply format_02d_two_digits;
              Z.to_euclidean_division_equations; lia].
    rewrite (duration_of_elapsed _ _ _ Hd).
    assert (T : duration_exact n = true).
    { apply (holds_from_sound _ _ _ _ duration_table). lia. }
    unfold duration_exact in T. apply andb_true_iff in T.
    destruct T as [T0 T1].
    apply str_eqb_eq in T0, T1. fold (hms_text n).
    destruct Hfrac as [-> | ->]; [| exact T1].
    now rewrite Z.add_0_r.
  - intros h Hh.
    assert (T : hour_exact h = true).
    { apply (holds_from_sound _ _ _ _ hour_table). lia. }
    unfold hour_exact in T. apply andb_true_iff in T.
    destruct T as [T0 T1]. apply str_eqb_eq in T0, T1.
    split; intros Hd; now rewrite (duration_of_elapsed _ _ _ Hd).
  - intros e now' He. unfold _calculate_session_duration. now rewrite He.
Qed.

Lemma session_duration_format_witness :
  _calculate_session_duration 3599999999%Z (current_session Examples.fresh)
  = lit "00:59:59"
  /\ _calculate_session_duration 93600000000%Z
       (current_session Examples.fresh)
     = lit "26:00:00".
Proof.
  split.
  - exact (proj1 (proj1 (session_duration_format
                           3599999999%Z (current_session Examples.fresh))
                    3599%Z 999999%Z ltac:(lia) (or_intror eq_refl) eq_refl)).
  - exact (proj1 (proj1 (proj2 (session_duration_format
                                  93600000000%Z
                                  (current_session Examples.fresh)))
                    26%Z ltac:(lia)) eq_refl).
Defined.

Lemma set_cards_seen_twice (s : Session) (a b : list CardEvent) :
  set_cards_seen (set_cards_seen s a) b = set_cards_seen s b.
Proof. reflexivity. Qed.

Lemma set_cards_seen_same (s : Session) : set_cards_seen s (cards_seen s) = s.
Proof. now destruct s. Qed.

(** The loop of [track_card_detection] changes the card list only. *)
Lemma fold_detect_frame (ts : datetime) (p : option str) (names : list str)
      (s : Session) :
  fold_left (detect ts p) names s
  = set_cards_seen s (cards_seen (fold_left (detect ts p) names s)).
Proof.
  revert s. induction names as [| n names IH]; intros s; simpl.
  - symmetry. apply set_cards_seen_same.
  - rewrite (IH (detect ts p s n)) at 1.
    generalize (cards_seen (fold_left (detect ts p) names (detect ts p s n))).
    intros cs. unfold detect.
    destruct (negb (mem n (map card_name (cards_seen s)))); reflexivity.
Qed.

Lemma names_detected_cons (c : op * datetime) (cs : list (op * datetime)) :
  names_detected (c :: cs) = names_detected [c] ++ names_detected cs.
Proof.
  unfold names_detected. simpl. now rewrite app_nil_r.
Qed.

Section RunStats.

Variable isoformat : datetime -> str.
Variable strftime : datetime -> str.
Variable json_dumps : json -> str.
Variable path_join : str -> str -> str.

Lemma step_counts (w : state Session * files)
      (c : op * datetime) :
  let s := current_session (fst w) in
  let s' := current_session (fst (step isoformat json_dumps path_join w c)) in
  map card_name (cards_seen s')
  = fold_left add_unique (names_detected [c]) (map card_name (cards_seen s))
  /\ length (game_events s')
     = length (game_events s) + (if is_event c then 1 else 0)
  /\ length (screenshots s')
     = length (screenshots s) + (if is_screenshot c then 1 else 0)
  /\ session_id s' = session_id s
  /\ start_time s' = start_time s
  /\ save_directory (fst (step isoformat json_dumps path_join w c))
     = save_directory (fst w).
Proof.
  destruct w as [t fs], c as [o now]. cbv zeta.
  unfold names_detected, is_event, is_screenshot.
  destruct o as [names p | ty d x | p r | names | | |];
    cbn [step fst snd map concat fold_left app];
    try (repeat split; try reflexivity; simpl; try lia;
         rewrite ?length_app; simpl; lia).
  rewrite app_nil_r.
  split; [apply (seen_track now t names p) |].
  unfold track_card_detection. cbn [current_session set_session].
  rewrite fold_detect_frame. simpl. repeat split; lia.
Qed.

Lemma run_counts (cs : list (op * datetime))
      (w : state Session * files) :
  let s := current_session (fst w) in
  let s' := current_session (fst (run isoformat json_dumps path_join w cs)) in
  map card_name (cards_seen s')
  = fold_left add_unique (names_detected cs) (map card_name (cards_seen s))
  /\ length (game_events s')
     = length (game_events s) + length (filter is_event cs)
  /\ length (screenshots s')
     = length (screenshots s) + length (filter is_screenshot cs)
  /\ session_id s' = session_id s
  /\ start_time s' = start_time s
  /\ save_directory (fst (run isoformat json_dumps path_join w cs))
     = save_directory (fst w).
Proof.
  cbv zeta. unfold run. revert w.
  induction cs as [| c cs IH]; intros w.
  - simpl. repeat split; try reflexivity; lia.
  - cbn [fold_left].
    destruct (IH (step isoformat json_dumps path_join w c))
      as [Hc [He [Hs [Hi [Ht Hd]]]]].
    destruct (step_counts w c) as [Hc1 [He1 [Hs1 [Hi1 [Ht1 Hd1]]]]].
    rewrite Hc, He, Hs, Hi, Ht, Hd, Hc1, He1, Hs1, Hi1, Ht1, Hd1.
    rewrite (names_detected_cons c cs), fold_left_app. cbn [filter].
    repeat split; try reflexivity;
      destruct (is_event c), (is_screenshot c); simpl; lia.
Qed.

(** After any sequence of calls on a fresh tracker, the statistics count
    what the calls recorded: [unique_cards_seen] is the number of
    distinct names passed to [track_card_detection], [total_events] the
    number of [track_game_event] calls, [screenshots_captured] the number
    of [track_screenshot] calls; the session identifier is the one
    generated at construction.  Saving, reporting and reading the
    statistics change none of them. *)
Theorem stats_count_calls
        (dir : str) (now_id now_start now : datetime)
        (fs : files) (cs : list (op * datetime)) :
  let stats :=
    get_session_stats now
      (fst (run isoformat json_dumps path_join
                (init strftime dir now_id now_start, fs) cs)) in
  unique_cards_seen stats = length (Spec.dedup_first (names_detected cs))
  /\ total_events stats = length (filter is_event cs)
  /\ screenshots_captured stats = length (filter is_screenshot cs)
  /\ stats_session_id stats = lit "clank_session_" ++ strftime now_id.
Proof.
  cbv zeta.
  destruct (run_counts cs (init strftime dir now_id now_start, fs))
    as [Hc [He [Hs [Hi _]]]].
  unfold get_session_stats.
  cbn [unique_cards_seen total_events screenshots_captured stats_session_id].
  rewrite He, Hs, Hi.
  split; [| repeat split].
  rewrite <- (length_map card_name), Hc, fold_add_unique. simpl.
  now rewrite filter_not_mem_nil.
Qed.

End RunStats.

(* ================================================================= *)
(** ** Saving and loading *)

Lemma read_write_same (fs : files) (p text : str) :
  read (write fs p text) p = Some text.
Proof. unfold write. simpl. now rewrite str_eqb_refl. Qed.

Lemma read_write_other (fs : files) (p q text : str) :
  q <> p -> read (write fs p text) q = read fs q.
Proof.
  intros H. unfold write. simpl.
  destruct (str_eqb q p) eqn:E; [| reflexivity].
  apply str_eqb_eq in E. contradiction.
Qed.

Section SaveLoad.

Variable isoformat : datetime -> str.
Variable json_dumps : json -> str.
Variable path_join : str -> str -> str.
Variable json_loads : str -> option json.

(** Saving writes the whole session, with [end_time] set to the clock
    reading and nothing else changed, to the path that pathlib forms
    from the save directory and the session identifier followed by
    [.json], and returns the text of that path.  Saving again writes to
    the same path, replacing the content with the session re-stamped at
    the new reading.  When [json.loads] reads back what [json.dumps]
    wrote, loading from the returned path puts exactly the saved
    document in place of the session of any tracker. *)
Theorem save_then_load (now : datetime) (fs : files) (t : state Session) :
  let saved := save_session isoformat json_dumps path_join now fs t in
  let session_file := fst (fst saved) in
  let t' := snd (fst saved) in
  let fs' := snd saved in
  let doc := session_to_json isoformat (current_session t') in
  session_file
  = path_join (save_directory t)
              (session_id (current_session t) ++ lit ".json")
  /\ current_session t' = set_end_time (current_session t) now
  /\ save_directory t' = save_directory t
  /\ read fs' session_file = Some (json_dumps doc)
  /\ (forall now2,
        let again := save_session isoformat json_dumps path_join now2 fs' t' in
        fst (fst again) = session_file
        /\ read (snd again) session_file
           = Some (json_dumps
                     (session_to_json isoformat
                        (set_end_time (current_session t) now2))))
  /\ (json_loads (json_dumps doc) = Some doc ->
      forall (S : Type) (u : state S),
        load_session json_loads fs' u session_file
        = inr {| save_directory := save_directory u;
                 current_session := doc |}).
Proof.
  cbv zeta. unfold save_session. cbn [fst snd current_session set_session
                                       save_directory].
  split; [reflexivity |]. split; [reflexivity |]. split; [reflexivity |].
  split; [apply read_write_same |].
  split.
  - intros now2. split; [reflexivity |].
    cbn [session_id set_end_time]. apply read_write_same.
  - intros Hrt S u. unfold load_session.
    now rewrite read_write_same, Hrt.
Qed.

End SaveLoad.

Lemma save_then_load_witness :
  Examples.loads_saved
    (Examples.no_dumps
       (session_to_json Examples.no_format
          (current_session
             (snd (fst (save_session Examples.no_format Examples.no_dumps
                          Examples.posix_join 9%Z [] Examples.fresh))))))
  = Some Examples.saved_doc
  /\ load_session Examples.loads_saved
       (snd (save_session Examples.no_format Examples.no_dumps
               Examples.posix_join 9%Z [] Examples.fresh))
       Examples.seven_events (lit "docs/clank_session_.json")
     = inr {| save_directory := lit "docs";
              current_session := Examples.saved_doc |}.
Proof.
  split; [reflexivity |].
  exact (proj2 (proj2 (proj2 (proj2 (proj2
           (save_then_load Examples.no_format Examples.no_dumps
              Examples.posix_join Examples.loads_saved 9%Z []
              Examples.fresh)))))
           eq_refl (Session) Examples.seven_events).
Defined.

(* ================================================================= *)
(** ** The time shown in the GUI lists *)

Lemma split_sep_first (sep : ascii) (s w : str) :
  nth_error (split_sep_from sep w s) 0 = Some (w ++ before sep s).
Proof.
  revert w. induction s as [| c s IH]; intros w;
    cbn [split_sep_from before].
  - simpl. now rewrite app_nil_r.
  - destruct (Ascii.eqb c sep).
    + simpl. now rewrite app_nil_r.
    + rewrite IH, <- app_assoc. reflexivity.
Qed.

Lemma split_sep_second (sep : ascii) (s w : str) :
  nth_error (split_sep_from sep w s) 1
  = match after sep s with
    | Some rest => Some (before sep rest)
    | None => None
    end.
Proof.
  revert w. induction s as [| c s IH]; intros w;
    cbn [split_sep_from after].
  - reflexivity.
  - destruct (Ascii.eqb c sep).
    + cbn [nth_error]. apply (split_sep_first sep s []).
    + apply IH.
Qed.

Lemma before_app (sep : ascii) (a b : str) :
  ~ In sep a -> before sep (a ++ sep :: b) = a.
Proof.
  induction a as [| c a IH]; intros H; simpl.
  - now rewrite Ascii.eqb_refl.
  - destruct (Ascii.eqb c sep) eqn:E.
    + apply Ascii.eqb_eq in E. subst. exfalso. apply H. now left.
    + f_equal. apply IH. intros Hin. apply H. now right.
Qed.

Lemma before_all (sep : ascii) (a : str) : ~ In sep a -> before sep a = a.
Proof.
  induction a as [| c a IH]; intros H; simpl; [reflexivity |].
  destruct (Ascii.eqb c sep) eqn:E.
  - apply Ascii.eqb_eq in E. subst. exfalso. apply H. now left.
  - f_equal. apply IH. intros Hin. apply H. now right.
Qed.

Lemma after_app (sep : ascii) (a b : str) :
  ~ In sep a -> after sep (a ++ sep :: b) = Some b.
Proof.
  induction a as [| c a IH]; intros H; simpl.
  - now rewrite Ascii.eqb_refl.
  - destruct (Ascii.eqb c sep) eqn:E.
    + apply Ascii.eqb_eq in E. subst. exfalso. apply H. now left.
    + apply IH. intros Hin. apply H. now right.
Qed.

Lemma after_none (sep : ascii) (a : str) : ~ In sep a -> after sep a = None.
Proof.
  induction a as [| c a IH]; intros H; simpl; [reflexivity |].
  destruct (Ascii.eqb c sep) eqn:E.
  - apply Ascii.eqb_eq in E. subst. exfalso. apply H. now left.
  - apply IH. intros Hin. apply H. now right.
Qed.

Lemma time_part_cut (timestamp : str) :
  ClankTrackerGUI.time_part timestamp
  = match after "T" timestamp with
    | Some rest => Some (before "." (before "T" rest))
    | None => None
    end.
Proof.
  unfold ClankTrackerGUI.time_part, split_sep.
  rewrite split_sep_second.
  destruct (after "T" timestamp) as [rest |]; [| reflexivity].
  apply (split_sep_first "." (before "T" rest) []).
Qed.

Lemma before_dot_before_T (time rest : str) :
  ~ In "T"%char time -> ~ In "."%char time ->
  before "." (before "T" (time ++ "."%char :: rest)) = time.
Proof.
  induction time as [| c time IH]; intros HT Hdot.
  - reflexivity.
  - cbn [app before].
    destruct (Ascii.eqb c "T") eqn:ET.
    { apply Ascii.eqb_eq in ET. subst. exfalso. apply HT. now left. }
    cbn [before].
    destruct (Ascii.eqb c ".") eqn:ED.
    { apply Ascii.eqb_eq in ED. subst. exfalso. apply Hdot. now left. }
    f_equal. apply IH; intros Hin; [apply HT | apply Hdot]; now right.
Qed.

(** The card and event lists of the GUI show, for a timestamp made of a
    date, the letter T and a time, with or without a fraction after a
    dot, exactly the time; a timestamp without the letter T has no such
    part, and the list update raises. *)
Theorem time_part_of_iso (date time fraction : str) :
  ~ In "T"%char date -> ~ In "T"%char time -> ~ In "."%char time ->
  ClankTrackerGUI.time_part (date ++ lit "T" ++ time ++ lit "." ++ fraction)
  = Some time
  /\ ClankTrackerGUI.time_part (date ++ lit "T" ++ time) = Some time
  /\ ClankTrackerGUI.time_part date = None.
Proof.
  intros Hd Ht Hdot. rewrite !time_part_cut.
  change (lit "T" ++ time ++ lit "." ++ fraction)
    with ("T"%char :: time ++ "."%char :: fraction).
  change (lit "T" ++ time) with ("T"%char :: time).
  rewrite !after_app by assumption.
  rewrite (after_none "T" date Hd).
  split; [| split; [| reflexivity]].
  - f_equal. now apply before_dot_before_T.
  - f_equal. rewrite (before_all "T" time Ht). now apply before_all.
Qed.

Lemma time_part_of_iso_witness :
  ~ In "T"%char (lit "2026-11-04")
  /\ ClankTrackerGUI.time_part (lit "2026-11-04T12:34:56.789012")
     = Some (lit "12:34:56").
Proof.
  assert (Hd : ~ In "T"%char (lit "2026-11-04")).
  { intros H. repeat (destruct H as [H | H]; [discriminate H |]). exact H. }
  assert (Ht : ~ In "T"%char (lit "12:34:56")).
  { intros H. repeat (destruct H as [H | H]; [discriminate H |]). exact H. }
  assert (Hdot : ~ In "."%char (lit "12:34:56")).
  { intros H. repeat (destruct H as [H | H]; [discriminate H |]). exact H. }
  split; [exact Hd |].
  exact (proj1 (time_part_of_iso (lit "2026-11-04") (lit "12:34:56")
                  (lit "789012") Hd Ht Hdot)).
Defined.

(* ================================================================= *)
(** ** Cleaning a cleaned text *)

Lemma name_char_keeps (c : ascii) : name_char c = true -> keeps c = true.
Proof. by_table c. Qed.

Lemma isspace_toupper (c : ascii) : isspace (toupper c) = isspace c.
Proof. by_table c. Qed.

Lemma toupper_cased (c : ascii) :
  islower c = true -> islower (toupper c) = false /\ isupper (toupper c) = true.
Proof. by_table c. Qed.

Lemma tolower_cased (c : ascii) :
  isupper c = true -> islower (tolower c) = true.
Proof. by_table c. Qed.

Lemma title_from_idem (b : bool) (x : str) :
  title_from b (title_from b x) = title_from b x.
Proof.
  revert b. induction x as [| c x IH]; intros b; simpl; [reflexivity |].
  destruct (islower c) eqn:Hl.
  - destruct b; simpl.
    + now rewrite Hl, IH.
    + destruct (toupper_cased c Hl) as [Hl' Hu']. now rewrite Hl', Hu', IH.
  - destruct (isupper c) eqn:Hu.
    + destruct b; simpl.
      * now rewrite (tolower_cased c Hu), IH.
      * now rewrite Hl, Hu, IH.
    + simpl. now rewrite Hl, Hu, IH.
Qed.

Lemma strip_decompose (z : str) :
  exists pre post, spaces pre /\ spaces post /\ z = pre ++ strip z ++ post.
Proof.
  destruct (lstrip_decompose z) as [pre [Hpre Hz]].
  destruct (rstrip_decompose (lstrip z)) as [post [Hpost Hy]].
  exists pre, post. unfold strip. rewrite <- Hy. auto.
Qed.

Lemma strip_title_fixed (y : str) : title y = y -> title (strip y) = strip y.
Proof.
  intros H. destruct (strip_decompose y) as [pre [post [Hpre [Hpost Hy]]]].
  rewrite Hy in H at 1. rewrite title_padded in H by assumption.
  rewrite Hy in H at 2.
  apply app_inv_head in H. now apply app_inv_tail in H.
Qed.

Lemma clean_text_tidy (s : str) : tidy (clean_text s).
Proof.
  split; [apply clean_text_name_chars |].
  split; [apply strip_idem |].
  unfold clean_text. apply strip_title_fixed.
  unfold title. apply title_from_idem.
Qed.

Lemma collapse_from_Forall (P : ascii -> Prop) (r : bool) (x : str) :
  P " "%char -> Forall P x -> Forall P (Spec.collapse_from r x).
Proof.
  intros Hsp H. revert r.
  induction H as [| c x Hc _ IH]; intros r; simpl; [constructor |].
  destruct (isspace c); [destruct r |]; auto.
Qed.

Lemma collapse_from_idem (r : bool) (x : str) :
  Spec.collapse_from r (Spec.collapse_from r x) = Spec.collapse_from r x.
Proof.
  revert r. induction x as [| c x IH]; intros r; simpl; [reflexivity |].
  destruct (isspace c) eqn:Hc.
  - destruct r; [apply IH |]. simpl. now rewrite IH.
  - simpl. now rewrite Hc, IH.
Qed.

Lemma title_collapse_comm (r b : bool) (x : str) :
  (r = true -> b = false) ->
  title_from b (Spec.collapse_from r x)
  = Spec.collapse_from r (title_from b x).
Proof.
  revert r b. induction x as [| c x IH]; intros r b Hrb; simpl;
    [reflexivity |].
  destruct (isspace c) eqn:Hc.
  - destruct (isspace_uncased c Hc) as [Hl Hu]. rewrite Hl, Hu. simpl.
    rewrite Hc. destruct r.
    + rewrite (Hrb eq_refl). now apply IH.
    + simpl. f_equal. now apply IH.
  - simpl. destruct (islower c) eqn:Hl; [| destruct (isupper c) eqn:Hu].
    + assert (E : isspace (if b then c else toupper c) = false)
        by (destruct b; [| rewrite isspace_toupper]; exact Hc).
      simpl. rewrite E. f_equal. apply IH. discriminate.
    + assert (E : isspace (if b then tolower c else c) = false)
        by (destruct b; [rewrite isspace_tolower |]; exact Hc).
      simpl. rewrite E. f_equal. apply IH. discriminate.
    + simpl. rewrite Hc. f_equal. apply IH. discriminate.
Qed.

Lemma collapse_from_snoc (r : bool) (x : str) (l : ascii) :
  isspace l = false ->
  Spec.collapse_from r (x ++ [l]) = Spec.collapse_from r x ++ [l].
Proof.
  intros Hl. revert r. induction x as [| c x IH]; intros r; simpl.
  - now rewrite Hl.
  - destruct (isspace c); [destruct r |]; simpl; now rewrite IH.
Qed.

Lemma rstrip_snoc (y : str) (l : ascii) :
  isspace l = false -> rstrip (y ++ [l]) = y ++ [l].
Proof.
  intros Hl. unfold rstrip. rewrite rev_app_distr. simpl. rewrite Hl.
  simpl. now rewrite rev_involutive.
Qed.

Lemma strip_collapse_fixed (z : str) :
  strip z = z -> strip (Spec.collapse_ws z) = Spec.collapse_ws z.
Proof.
  intros H. unfold Spec.collapse_ws.
  destruct z as [| h z']; [reflexivity |].
  assert (Hh : isspace h = false)
    by (apply (strip_head (h :: z') z'); exact H).
  destruct (@exists_last _ (h :: z')) as [y [l Hz]]; [discriminate |].
  assert (Hl : isspace l = false)
    by (apply (strip_last (h :: z') y); now rewrite H).
  rewrite Hz, collapse_from_snoc by exact Hl.
  unfold strip.
  assert (E : lstrip (Spec.collapse_from false y ++ [l])
              = Spec.collapse_from false y ++ [l]).
  { rewrite <- (collapse_from_snoc false y l Hl), <- Hz.
    simpl. rewrite Hh. simpl. now rewrite Hh. }
  rewrite E. now apply rstrip_snoc.
Qed.

Lemma clean_text_collapse (s : str) :
  clean_text s = strip (title (filter keeps (Spec.collapse_ws s))).
Proof.
  unfold clean_text, remove_artifacts.
  destruct (collapse_ws_join s) as [pre [post [Hpre [Hpost Heq]]]].
  rewrite Heq.
  rewrite !filter_app, (filter_spaces pre Hpre), (filter_spaces post Hpost).
  rewrite title_padded by assumption.
  now rewrite strip_padded.
Qed.

Lemma clean_text_of_tidy (z : str) :
  tidy z -> clean_text z = Spec.collapse_ws z /\ tidy (Spec.collapse_ws z).
Proof.
  intros [Hn [Hs Ht]].
  assert (Hn' : Forall (fun c => name_char c = true) (Spec.collapse_ws z))
    by (apply collapse_from_Forall; [reflexivity | exact Hn]).
  assert (Ht' : title (Spec.collapse_ws z) = Spec.collapse_ws z).
  { unfold title, Spec.collapse_ws.
    rewrite title_collapse_comm by discriminate.
    fold (title z). now rewrite Ht. }
  assert (Hs' : strip (Spec.collapse_ws z) = Spec.collapse_ws z)
    by now apply strip_collapse_fixed.
  split; [| repeat split; assumption].
  rewrite clean_text_collapse.
  rewrite (forallb_filter_id keeps).
  - now rewrite Ht', Hs'.
  - apply forallb_forall. intros c Hc. apply name_char_keeps.
    rewrite Forall_forall in Hn'. now apply Hn'.
Qed.

(** On a text of ASCII characters, a second cleaning only collapses the
    runs of spaces that the first left where it removed a whole token,
    and its result is stable: a third cleaning changes nothing.  So
    cleaning is idempotent exactly on the ASCII texts whose cleaned form
    has no run of spaces left to collapse. *)
Theorem clean_text_twice_stable (s : str) :
  ascii_text s ->
  clean_text (clean_text s) = Spec.collapse_ws (clean_text s)
  /\ clean_text (clean_text (clean_text s)) = clean_text (clean_text s)
  /\ (clean_text (clean_text s) = clean_text s
      <-> Spec.collapse_ws (clean_text s) = clean_text s).
Proof.
  intros _.
  destruct (clean_text_of_tidy _ (clean_text_tidy s)) as [H1 T1].
  destruct (clean_text_of_tidy _ T1) as [H2 _].
  split; [exact H1 |]. split.
  - rewrite H1, H2. unfold Spec.collapse_ws. apply collapse_from_idem.
  - now rewrite H1.
Qed.

Lemma clean_text_twice_stable_witness :
  ascii_text (lit "Skill Point : 2")
  /\ clean_text (lit "Skill Point : 2") = lit "Skill Point  2"
  /\ clean_text (clean_text (lit "Skill Point : 2")) = lit "Skill Point 2"
  /\ clean_text (clean_text (lit "Skill Point : 2"))
     = Spec.collapse_ws (clean_text (lit "Skill Point : 2")).
Proof.
  split; [reflexivity |].
  split; [reflexivity |].
  split; [reflexivity |].
  exact (proj1 (clean_text_twice_stable (lit "Skill Point : 2") eq_refl)).
Defined.
